(** * State estimation front end (flight/modules/StateEstimation/stateestimation.c)

    A shallow embedding of the sensor aggregation and filter dispatch
    module: the dirty-bit set [updatedSensors], the per-sensor sanity
    gating of [StateEstimationCb], the home-relative linearisation
    [getNED] with its matrix [LLA2NEDM], and the two notification
    handlers [settingsUpdatedCb] and [sensorUpdatedCb]. *)

From Stdlib Require Import ZArith Bool List Lia.
From Stdlib Require Import Floats.SpecFloat.
From stdpp Require Import base fin vector.
Import ListNotations.

Local Open Scope Z_scope.

(** ** C [float]: IEEE 754 binary32, round to nearest even *)

Definition prec : Z := 24.
Definition emax : Z := 128.

Definition float : Type := spec_float.

Definition fadd : float -> float -> float := SFadd prec emax.
Definition fsub : float -> float -> float := SFsub prec emax.
Definition fmul : float -> float -> float := SFmul prec emax.
Definition fdiv : float -> float -> float := SFdiv prec emax.
Definition fabsf : float -> float := SFabs.

(** [a > b] and [a == b] on floats; both are false when an operand is NaN. *)
Definition fgt (a b : float) : bool := SFltb b a.
Definition feq (a b : float) : bool := SFeqb a b.

(** An integer literal read as a [float]. *)
Definition Z2F (n : Z) : float := binary_normalize prec emax n 0 false.

Declare Scope f32_scope.
Delimit Scope f32_scope with f32.
Bind Scope f32_scope with float.
Infix "+" := fadd : f32_scope.
Infix "-" := fsub : f32_scope.
Infix "*" := fmul : f32_scope.
Infix "/" := fdiv : f32_scope.
Infix ">" := fgt : f32_scope.
Infix "==" := feq (at level 70, no associativity) : f32_scope.

(** The literals of the source: [10.0e6f], [6.378137E6f], [-1.0f], [1e-5f]. *)
Definition c_10_0e6f : float := Z2F 10000000.
Definition c_6_378137E6f : float := Z2F 6378137.
Definition c_m1_0f : float := Z2F (-1).
Definition c_1e_5f : float := (Z2F 1 / Z2F 100000)%f32.

(** Neither infinite nor NaN. *)
Definition is_finite (x : float) : bool :=
  match x with
  | S754_zero _ | S754_finite _ _ _ => true
  | S754_infinity _ | S754_nan => false
  end.

(** [0.0f] *)
Definition fzero : float := S754_zero false.

(** A signed zero; [x == 0.0f] in C. *)
Definition is_zero (x : float) : bool :=
  match x with
  | S754_zero _ => true
  | _ => false
  end.

(** The [float] nearest to pi: 13176795 * 2^-22. *)
Definition F_PI : float := S754_finite false 13176795 (-22).

(** Modelled from the spec: the [DEG2RAD] macro comes from a header
    (CoordinateConversions.h) that is not among the sources; the spec
    only says that the differences are taken "in radians", so the macro
    is the single-precision product with pi/180. *)
Definition DEG2RAD (deg : float) : float := (deg * (F_PI / Z2F 180))%f32.

(** ** The header part of the source file *)

(** [enum sensorUpdates]: one bit per sensor channel. *)
Definition gyr_UPDATED : Z := Z.shiftl 1 0.
Definition acc_UPDATED : Z := Z.shiftl 1 1.
Definition mag_UPDATED : Z := Z.shiftl 1 2.
Definition pos_UPDATED : Z := Z.shiftl 1 3.
Definition vel_UPDATED : Z := Z.shiftl 1 4.
Definition bar_UPDATED : Z := Z.shiftl 1 5.
Definition ias_UPDATED : Z := Z.shiftl 1 6.

(** [struct stateEstimation]: the per-cycle snapshot. *)
Record stateEstimation : Type := {
  gyr : vec float 3;
  acc : vec float 3;
  mag : vec float 3;
  pos : vec float 3;
  vel : vec float 3;
  bar : vec float 1;
  ias : vec float 1;
  updated : Z
}.

(** [#define ISSET(bitfield, bit) ((bitfield) & (bit) ? 1 : 0)] *)
Definition ISSET (bitfield bit : Z) : bool :=
  if Z.land bitfield bit =? 0 then false else true.

(** [#define UNSET(bitfield, bit) (bitfield) &= ~(bit)], as the new value
    of [bitfield]. *)
Definition UNSET (bitfield bit : Z) : Z := Z.land bitfield (Z.lnot bit).

(** [struct stateFilterStruct]: the two entry points of a filter unit.
    [update] receives the snapshot by pointer; here it returns its status
    and the snapshot it leaves behind. *)
Record stateFilter : Type := {
  init : unit -> Z;
  update : stateEstimation -> Z * stateEstimation
}.

(** [struct filterQueueStruct] is a singly linked list of filters. *)
Definition filtereQueue : Type := list stateFilter.

(** The member names of the snapshot that the sanity macros paste into
    [sensors.shortname] and [shortname##_UPDATED]. *)
Inductive shortname3 : Type := Gyr | Acc | Mag | Pos | Vel.
Inductive shortname1 : Type := Bar | Ias.

Definition UPDATED3 (n : shortname3) : Z :=
  match n with
  | Gyr => gyr_UPDATED
  | Acc => acc_UPDATED
  | Mag => mag_UPDATED
  | Pos => pos_UPDATED
  | Vel => vel_UPDATED
  end.

Definition UPDATED1 (n : shortname1) : Z :=
  match n with
  | Bar => bar_UPDATED
  | Ias => ias_UPDATED
  end.

Definition member3 (n : shortname3) (s : stateEstimation) : vec float 3 :=
  match n with
  | Gyr => gyr s
  | Acc => acc s
  | Mag => mag s
  | Pos => pos s
  | Vel => vel s
  end.

Definition member1 (n : shortname1) (s : stateEstimation) : vec float 1 :=
  match n with
  | Bar => bar s
  | Ias => ias s
  end.

Definition set_member3 (n : shortname3) (v : vec float 3) (s : stateEstimation)
  : stateEstimation :=
  match n with
  | Gyr => {| gyr := v; acc := acc s; mag := mag s; pos := pos s;
              vel := vel s; bar := bar s; ias := ias s; updated := updated s |}
  | Acc => {| gyr := gyr s; acc := v; mag := mag s; pos := pos s;
              vel := vel s; bar := bar s; ias := ias s; updated := updated s |}
  | Mag => {| gyr := gyr s; acc := acc s; mag := v; pos := pos s;
              vel := vel s; bar := bar s; ias := ias s; updated := updated s |}
  | Pos => {| gyr := gyr s; acc := acc s; mag := mag s; pos := v;
              vel := vel s; bar := bar s; ias := ias s; updated := updated s |}
  | Vel => {| gyr := gyr s; acc := acc s; mag := mag s; pos := pos s;
              vel := v; bar := bar s; ias := ias s; updated := updated s |}
  end.

Definition set_member1 (n : shortname1) (v : vec float 1) (s : stateEstimation)
  : stateEstimation :=
  match n with
  | Bar => {| gyr := gyr s; acc := acc s; mag := mag s; pos := pos s;
              vel := vel s; bar := v; ias := ias s; updated := updated s |}
  | Ias => {| gyr := gyr s; acc := acc s; mag := mag s; pos := pos s;
              vel := vel s; bar := bar s; ias := v; updated := updated s |}
  end.

Definition set_updated (u : Z) (s : stateEstimation) : stateEstimation :=
  {| gyr := gyr s; acc := acc s; mag := mag s; pos := pos s;
     vel := vel s; bar := bar s; ias := ias s; updated := u |}.

(** ** The objects the module reads

    The generated object headers (gyrosensor.h, gpsposition.h,
    homelocation.h, ...) are not among the sources.  Each record below
    keeps the members this module reads; every raw scalar is a [float],
    as in the [isSane(value: float)] of the specification. *)

(** Modelled from the spec: the gyroscope sample, header gyrosensor.h. *)
Record GyroSensorData : Type := {
  GyroSensor_x : float;
  GyroSensor_y : float;
  GyroSensor_z : float
}.

(** Modelled from the spec: the accelerometer sample, header
    accelsensor.h. *)
Record AccelSensorData : Type := {
  AccelSensor_x : float;
  AccelSensor_y : float;
  AccelSensor_z : float
}.

(** Modelled from the spec: the magnetometer sample, header
    magnetosensor.h. *)
Record MagnetoSensorData : Type := {
  MagnetoSensor_x : float;
  MagnetoSensor_y : float;
  MagnetoSensor_z : float
}.

(** Modelled from the spec: the GPS velocity sample, header
    gpsvelocity.h. *)
Record GPSVelocityData : Type := {
  GPSVelocity_North : float;
  GPSVelocity_East : float;
  GPSVelocity_Down : float
}.

(** Modelled from the spec: the barometer sample, header barosensor.h. *)
Record BaroSensorData : Type := { BaroSensor_Altitude : float }.

(** Modelled from the spec: the "sensor connected" status of the
    airspeed sample, header airspeedsensor.h. *)
Inductive AirspeedSensorSensorConnectedOptions : Type :=
| AIRSPEEDSENSOR_SENSORCONNECTED_FALSE
| AIRSPEEDSENSOR_SENSORCONNECTED_TRUE.

(** Modelled from the spec: the airspeed sample, header airspeedsensor.h. *)
Record AirspeedSensorData : Type := {
  AirspeedSensor_CalibratedAirspeed : float;
  AirspeedSensor_SensorConnected : AirspeedSensorSensorConnectedOptions
}.

(** Modelled from the spec: the geodetic sample, header gpsposition.h. *)
Record GPSPositionData : Type := {
  GPSPosition_Latitude : float;
  GPSPosition_Longitude : float;
  GPSPosition_Altitude : float;
  GPSPosition_GeoidSeparation : float
}.

(** Modelled from the spec: the validity flag of the home reference,
    header homelocation.h. *)
Inductive HomeLocationSetOptions : Type :=
| HOMELOCATION_SET_FALSE
| HOMELOCATION_SET_TRUE.

(** Modelled from the spec: the home reference, header homelocation.h:
    latitude, longitude, altitude, magnetic field vector and validity
    flag. *)
Record HomeLocationData : Type := {
  HomeLocation_Set : HomeLocationSetOptions;
  HomeLocation_Latitude : float;
  HomeLocation_Longitude : float;
  HomeLocation_Altitude : float;
  HomeLocation_Be : vec float 3
}.

(** [==] on the two option enumerations. *)
Definition connected_eqb (a b : AirspeedSensorSensorConnectedOptions) : bool :=
  match a, b with
  | AIRSPEEDSENSOR_SENSORCONNECTED_FALSE, AIRSPEEDSENSOR_SENSORCONNECTED_FALSE
  | AIRSPEEDSENSOR_SENSORCONNECTED_TRUE, AIRSPEEDSENSOR_SENSORCONNECTED_TRUE => true
  | _, _ => false
  end.

Definition set_eqb (a b : HomeLocationSetOptions) : bool :=
  match a, b with
  | HOMELOCATION_SET_FALSE, HOMELOCATION_SET_FALSE
  | HOMELOCATION_SET_TRUE, HOMELOCATION_SET_TRUE => true
  | _, _ => false
  end.

(** None of the settings members is read here: the object is its packed
    bytes. *)
Definition RevoSettingsData : Type := list Byte.byte.

(** An object handle is a pointer; [0] is [NULL]. *)
Definition UAVObjHandle : Type := Z.

(** A registered object: its handle and its current value. *)
Record uavobj (D : Type) : Type := { handle : UAVObjHandle; data : D }.
Arguments handle {D} _.
Arguments data {D} _.

(** [UAVObjEvent]: of the event only [obj] is read. *)
Record UAVObjEvent : Type := { obj : UAVObjHandle }.

(** [DelayedCallbackInfo *]: a pointer into the callback scheduler. *)
Definition DelayedCallbackInfo : Type := Z.

(** The object store and the callback scheduler, as this module sees
    them. [created] is the pointer [DelayedCallbackCreate] hands out. *)
Record objects : Type := {
  GyroSensorObj : uavobj GyroSensorData;
  AccelSensorObj : uavobj AccelSensorData;
  MagnetoSensorObj : uavobj MagnetoSensorData;
  BaroSensorObj : uavobj BaroSensorData;
  AirspeedSensorObj : uavobj AirspeedSensorData;
  GPSPositionObj : uavobj GPSPositionData;
  GPSVelocityObj : uavobj GPSVelocityData;
  HomeLocationObj : uavobj HomeLocationData;
  RevoSettingsObj : uavobj RevoSettingsData;
  created : DelayedCallbackInfo
}.

(** The private variables of the module. [attitudeTaskHandle] is never
    used and is left out. *)
Record statics : Type := {
  stateEstimationCallback : DelayedCallbackInfo;
  revoSettings : RevoSettingsData;
  homeLocation : HomeLocationData;
  LLA2NEDM : vec float 3;
  updatedSensors : Z
}.

(** The objects, callbacks and constants that the calls into the rest of
    the firmware name. *)
Inductive objname : Type :=
| oRevoSettings | oHomeLocation | oGyroSensor | oAccelSensor | oMagnetoSensor
| oBaroSensor | oAirspeedSensor | oGPSPosition | oGPSVelocity.

Inductive callback : Type := cb_settingsUpdatedCb | cb_sensorUpdatedCb | cb_StateEstimationCb.

Inductive alarm_elem : Type := SYSTEMALARMS_ALARM_ATTITUDE.
Inductive alarm_severity : Type := SYSTEMALARMS_ALARM_WARNING.
Inductive update_mode : Type := UPDATEMODE_SOONER.

(** A call into the rest of the firmware; the log [calls] of the world
    keeps them in the order they are made. *)
Inductive call : Type :=
| Initialize (o : objname)
| ConnectCallback (o : objname) (cb : callback)
| DelayedCallbackCreate (cb : callback)
| DelayedCallbackSchedule (info : DelayedCallbackInfo) (ms : Z) (mode : update_mode)
| DelayedCallbackDispatch (info : DelayedCallbackInfo)
| AlarmsSet (a : alarm_elem) (s : alarm_severity)
| AlarmsClear (a : alarm_elem).

Record world : Type := {
  store : objects;
  vars : statics;
  calls : list call
}.

(** [#define TIMEOUT_MS 100] *)
Definition TIMEOUT_MS : Z := 100.

(** ** State passing *)

Definition M (A : Type) : Type := world -> A * world.

Definition ret {A} (a : A) : M A := fun w => (a, w).

Definition bind {A B} (c : M A) (k : A -> M B) : M B :=
  fun w => let (a, w') := c w in k a w'.

#[global] Instance M_ret : MRet M := @ret.
#[global] Instance M_bind : MBind M := fun A B k c => bind c k.

(** Reading an object ([xxxGet]) and its handle ([xxxHandle]). *)
Definition Get {D} (o : objects -> uavobj D) : M D :=
  fun w => (data (o (store w)), w).

Definition Handle {D} (o : objects -> uavobj D) : M UAVObjHandle :=
  fun w => (handle (o (store w)), w).

(** Reading and writing a private variable. *)
Definition read {A} (f : statics -> A) : M A := fun w => (f (vars w), w).

Definition write (f : statics -> statics) : M unit :=
  fun w => (tt, {| store := store w; vars := f (vars w); calls := calls w |}).

Definition extern (c : call) : M unit :=
  fun w => (tt, {| store := store w; vars := vars w; calls := calls w ++ [c] |}).

Definition set_stateEstimationCallback (v : DelayedCallbackInfo) (s : statics) : statics :=
  {| stateEstimationCallback := v; revoSettings := revoSettings s;
     homeLocation := homeLocation s; LLA2NEDM := LLA2NEDM s;
     updatedSensors := updatedSensors s |}.

Definition set_revoSettings (v : RevoSettingsData) (s : statics) : statics :=
  {| stateEstimationCallback := stateEstimationCallback s; revoSettings := v;
     homeLocation := homeLocation s; LLA2NEDM := LLA2NEDM s;
     updatedSensors := updatedSensors s |}.

Definition set_homeLocation (v : HomeLocationData) (s : statics) : statics :=
  {| stateEstimationCallback := stateEstimationCallback s; revoSettings := revoSettings s;
     homeLocation := v; LLA2NEDM := LLA2NEDM s;
     updatedSensors := updatedSensors s |}.

Definition set_LLA2NEDM (i : fin 3) (v : float) (s : statics) : statics :=
  {| stateEstimationCallback := stateEstimationCallback s; revoSettings := revoSettings s;
     homeLocation := homeLocation s; LLA2NEDM := vinsert i v (LLA2NEDM s);
     updatedSensors := updatedSensors s |}.

Definition set_updatedSensors (v : Z) (s : statics) : statics :=
  {| stateEstimationCallback := stateEstimationCallback s; revoSettings := revoSettings s;
     homeLocation := homeLocation s; LLA2NEDM := LLA2NEDM s;
     updatedSensors := v |}.

(** [if (c) { body }] without an else branch. *)
Definition when (c : bool) (body : M unit) : M unit :=
  if c then body else mret tt.

(** [updatedSensors |= bit;] *)
Definition or_updatedSensors (bit : Z) : M unit :=
  u ← read updatedSensors;
  write (set_updatedSensors (Z.lor u bit)).

(** ** The functions of the module *)

Section StateEstimation.

(** [sane] is called on every raw scalar but is not defined in the
    sources, and [cosf] belongs to the C library: both are parameters. *)
Variable sane : float -> bool.
Variable cosf : float -> float.

(** [static void getNED(GPSPositionData *gpsPosition, float *NED)]: the
    array behind [NED] is passed in and the array it holds on return is
    the result. *)
Definition getNED (gpsPosition : GPSPositionData) (NED : vec float 3) : M (vec float 3) :=
  home ← read homeLocation;
  m ← read LLA2NEDM;
  let dL : vec float 3 :=
    [# DEG2RAD ((GPSPosition_Latitude gpsPosition - HomeLocation_Latitude home) / c_10_0e6f);
       DEG2RAD ((GPSPosition_Longitude gpsPosition - HomeLocation_Longitude home) / c_10_0e6f);
       GPSPosition_Altitude gpsPosition + GPSPosition_GeoidSeparation gpsPosition
         - HomeLocation_Altitude home ]%f32 in
  let NED := vinsert 0%fin (m !!! 0%fin * dL !!! 0%fin)%f32 NED in
  let NED := vinsert 1%fin (m !!! 1%fin * dL !!! 1%fin)%f32 NED in
  let NED := vinsert 2%fin (m !!! 2%fin * dL !!! 2%fin)%f32 NED in
  mret NED.

(** [static void settingsUpdatedCb(UAVObjEvent *ev)]. The source ends on
    a dangling [if] with neither condition nor body, which contributes
    nothing here. *)
Definition settingsUpdatedCb (ev : option UAVObjEvent) : M unit :=
  h ← Get HomeLocationObj;
  write (set_homeLocation h) ;;
  home ← read homeLocation;
  when (sane (HomeLocation_Latitude home) && sane (HomeLocation_Longitude home)
        && sane (HomeLocation_Altitude home) && sane (HomeLocation_Be home !!! 0%fin)
        && sane (HomeLocation_Be home !!! 1%fin) && sane (HomeLocation_Be home !!! 2%fin))
    (let lat := DEG2RAD (HomeLocation_Latitude home / c_10_0e6f)%f32 in
     let alt := HomeLocation_Altitude home in
     write (set_LLA2NEDM 0%fin (alt + c_6_378137E6f)%f32) ;;
     write (set_LLA2NEDM 1%fin (cosf lat * (alt + c_6_378137E6f))%f32) ;;
     write (set_LLA2NEDM 2%fin c_m1_0f)) ;;
  r ← Get RevoSettingsObj;
  write (set_revoSettings r).

(** [static void sensorUpdatedCb(UAVObjEvent *ev)] *)
Definition sensorUpdatedCb (ev : option UAVObjEvent) : M unit :=
  match ev with
  | None => mret tt
  | Some ev =>
    h ← Handle GyroSensorObj;
    when (obj ev =? h) (or_updatedSensors gyr_UPDATED) ;;
    h ← Handle AccelSensorObj;
    when (obj ev =? h) (or_updatedSensors acc_UPDATED) ;;
    h ← Handle MagnetoSensorObj;
    when (obj ev =? h) (or_updatedSensors mag_UPDATED) ;;
    h ← Handle GPSPositionObj;
    when (obj ev =? h) (or_updatedSensors pos_UPDATED) ;;
    h ← Handle GPSVelocityObj;
    when (obj ev =? h) (or_updatedSensors vel_UPDATED) ;;
    h ← Handle BaroSensorObj;
    when (obj ev =? h) (or_updatedSensors bar_UPDATED) ;;
    h ← Handle AirspeedSensorObj;
    when (obj ev =? h) (or_updatedSensors ias_UPDATED) ;;
    cb ← read stateEstimationCallback;
    extern (DelayedCallbackDispatch cb)
  end.

(** [#define SANITYCHECK3(sensorname, shortname, a1, a2, a3)], on the
    local [sensors]. *)
Definition SANITYCHECK3 {D} (sensorname : objects -> uavobj D) (shortname : shortname3)
    (a1 a2 a3 : D -> float) (sensors : stateEstimation) : M stateEstimation :=
  if ISSET (updated sensors) (UPDATED3 shortname) then
    s ← Get sensorname;
    if sane (a1 s) && sane (a2 s) && sane (a3 s) then
      let sensors :=
        set_member3 shortname (vinsert 0%fin (a1 s) (member3 shortname sensors)) sensors in
      let sensors :=
        set_member3 shortname (vinsert 1%fin (a2 s) (member3 shortname sensors)) sensors in
      let sensors :=
        set_member3 shortname (vinsert 2%fin (a3 s) (member3 shortname sensors)) sensors in
      mret sensors
    else
      mret (set_updated (UNSET (updated sensors) (UPDATED3 shortname)) sensors)
  else mret sensors.

(** [#define SANITYCHECK1(sensorname, shortname, a1, EXTRACHECK)];
    [EXTRACHECK] is an expression over the sample [s]. *)
Definition SANITYCHECK1 {D} (sensorname : objects -> uavobj D) (shortname : shortname1)
    (a1 : D -> float) (EXTRACHECK : D -> bool) (sensors : stateEstimation)
  : M stateEstimation :=
  if ISSET (updated sensors) (UPDATED1 shortname) then
    s ← Get sensorname;
    if sane (a1 s) && EXTRACHECK s then
      mret (set_member1 shortname (vinsert 0%fin (a1 s) (member1 shortname sensors)) sensors)
    else
      mret (set_updated (UNSET (updated sensors) (UPDATED1 shortname)) sensors)
  else mret sensors.

(** The block of [StateEstimationCb] that admits the position sample
    ([if (ISSET(sensors.updated, pos_UPDATED)) { ... }]), on the local
    [sensors]. The magnitude test reads [s.Latitude] in each of its three
    operands, as the source does. *)
Definition POSITIONCHECK (sensors : stateEstimation) : M stateEstimation :=
  if ISSET (updated sensors) pos_UPDATED then
    s ← Get GPSPositionObj;
    home ← read homeLocation;
    if set_eqb (HomeLocation_Set home) HOMELOCATION_SET_TRUE
       && sane (GPSPosition_Latitude s) && sane (GPSPosition_Longitude s)
       && sane (GPSPosition_Altitude s)
       && ((fabsf (GPSPosition_Latitude s) > c_1e_5f)%f32
           || (fabsf (GPSPosition_Latitude s) > c_1e_5f)%f32
           || (fabsf (GPSPosition_Latitude s) > c_1e_5f)%f32)
    then
      NED ← getNED s (pos sensors);
      mret (set_member3 Pos NED sensors)
    else
      mret (set_updated (UNSET (updated sensors) pos_UPDATED) sensors)
  else mret sensors.

(** What one run of [StateEstimationCb] leaves in its local [sensors]:
    [drained] is [sensors.updated] as read from the dirty set, [snapshot]
    is [sensors] at the point where the filter chain is to be traversed. *)
Record cycle : Type := {
  drained : Z;
  snapshot : stateEstimation
}.

(** [static void StateEstimationCb(void)]. [sensors0] is whatever the
    stack holds where the local [sensors] is allocated. The source tests
    an undeclared [updatedSensor] on entry; it is read as the dirty set
    [updatedSensors]. Between "traverse filtering chain" and the alarm
    handling the source has no statement. *)
Definition StateEstimationCb (sensors0 : stateEstimation) : M cycle :=
  (* set alarm to warning if called through timeout *)
  u ← read updatedSensors;
  alarm ← (if u =? 0
            then extern (AlarmsSet SYSTEMALARMS_ALARM_ATTITUDE SYSTEMALARMS_ALARM_WARNING) ;;
                 mret 1
            else mret 0);
  (* read updated sensor UAVObjects and set initial state *)
  u ← read updatedSensors;
  let sensors := set_updated u sensors0 in
  u ← read updatedSensors;
  write (set_updatedSensors (Z.lxor u (updated sensors))) ;;
  let mask := updated sensors in
  (* most sensors get only rudimentary sanity checks *)
  sensors ← SANITYCHECK3 GyroSensorObj Gyr GyroSensor_x GyroSensor_y GyroSensor_z sensors;
  sensors ← SANITYCHECK3 AccelSensorObj Acc AccelSensor_x AccelSensor_y AccelSensor_z sensors;
  sensors ← SANITYCHECK3 MagnetoSensorObj Mag MagnetoSensor_x MagnetoSensor_y MagnetoSensor_z
              sensors;
  sensors ← SANITYCHECK3 GPSVelocityObj Vel GPSVelocity_North GPSVelocity_East
              GPSVelocity_Down sensors;
  sensors ← SANITYCHECK1 BaroSensorObj Bar BaroSensor_Altitude (fun _ => true) sensors;
  sensors ← SANITYCHECK1 AirspeedSensorObj Ias AirspeedSensor_CalibratedAirspeed
              (fun s => connected_eqb (AirspeedSensor_SensorConnected s)
                          AIRSPEEDSENSOR_SENSORCONNECTED_TRUE) sensors;
  sensors ← POSITIONCHECK sensors;
  (* at this point sensor state is stored in "sensors" *)
  (* traverse filtering chain *)
  (* clear alarms if everything is alright, then schedule callback *)
  when (alarm =? 0) (extern (AlarmsClear SYSTEMALARMS_ALARM_ATTITUDE)) ;;
  cb ← read stateEstimationCallback;
  extern (DelayedCallbackSchedule cb TIMEOUT_MS UPDATEMODE_SOONER) ;;
  mret {| drained := mask; snapshot := sensors |}.

(** [int32_t StateEstimationInitialize(void)] *)
Definition StateEstimationInitialize : M Z :=
  extern (Initialize oRevoSettings) ;;
  extern (ConnectCallback oRevoSettings cb_settingsUpdatedCb) ;;
  extern (ConnectCallback oHomeLocation cb_settingsUpdatedCb) ;;
  extern (ConnectCallback oGyroSensor cb_sensorUpdatedCb) ;;
  extern (ConnectCallback oAccelSensor cb_sensorUpdatedCb) ;;
  extern (ConnectCallback oMagnetoSensor cb_sensorUpdatedCb) ;;
  extern (ConnectCallback oBaroSensor cb_sensorUpdatedCb) ;;
  extern (ConnectCallback oAirspeedSensor cb_sensorUpdatedCb) ;;
  extern (ConnectCallback oGPSPosition cb_sensorUpdatedCb) ;;
  extern (ConnectCallback oGPSVelocity cb_sensorUpdatedCb) ;;
  extern (DelayedCallbackCreate cb_StateEstimationCb) ;;
  info ← (fun w => (created (store w), w));
  write (set_stateEstimationCallback info) ;;
  mret 0.

Section Start.

(** The seven filter constructors live in other files; what each returns
    is a parameter. *)
Variables filterMagInitialize filterBaroInitialize filterStationaryInitialize
  filterCFInitialize filterCFMInitialize filterEKF13Initialize
  filterEKF16Initialize : unit -> stateFilter.

(** [int32_t StateEstimationStart(void)]: the seven filters end up in
    locals that nothing reads before the function returns. *)
Definition StateEstimationStart : M Z :=
  extern (ConnectCallback oRevoSettings cb_settingsUpdatedCb) ;;
  (* Force settings update to make sure rotation loaded *)
  settingsUpdatedCb None ;;
  (* Initialize Filters *)
  let magFilter := filterMagInitialize tt in
  let baroFilter := filterBaroInitialize tt in
  let stationaryFilter := filterStationaryInitialize tt in
  let cfFilter := filterCFInitialize tt in
  let cfmFilter := filterCFMInitialize tt in
  let ekf13Filter := filterEKF13Initialize tt in
  let ekf16Filter := filterEKF16Initialize tt in
  mret 0.

End Start.

End StateEstimation.

(** ** Running a command *)

Definition result {A} (c : M A) (w : world) : A := fst (c w).
Definition after {A} (c : M A) (w : world) : world := snd (c w).

(** The calls a command adds to the log. *)
Definition emitted {A} (c : M A) (w : world) : list call :=
  skipn (length (calls w)) (calls (after c w)).

(** A run of notifications, delivered one after the other. *)
Fixpoint notify (evs : list (option UAVObjEvent)) : M unit :=
  match evs with
  | [] => mret tt
  | ev :: rest => sensorUpdatedCb ev ;; notify rest
  end.

(** ** Vocabulary of the specification *)

(** The sensor channels of the specification, with the bit and the object
    each one stands for in the source. *)
Inductive SensorChannel : Type :=
| gyroscope | accelerometer | magnetometer | position | velocity | barometer | airspeed.

Definition channel_index (c : SensorChannel) : Z :=
  match c with
  | gyroscope => 0
  | accelerometer => 1
  | magnetometer => 2
  | position => 3
  | velocity => 4
  | barometer => 5
  | airspeed => 6
  end.

Definition channel_bit (c : SensorChannel) : Z :=
  match c with
  | gyroscope => gyr_UPDATED
  | accelerometer => acc_UPDATED
  | magnetometer => mag_UPDATED
  | position => pos_UPDATED
  | velocity => vel_UPDATED
  | barometer => bar_UPDATED
  | airspeed => ias_UPDATED
  end.

Definition channel_handle (c : SensorChannel) (o : objects) : UAVObjHandle :=
  match c with
  | gyroscope => handle (GyroSensorObj o)
  | accelerometer => handle (AccelSensorObj o)
  | magnetometer => handle (MagnetoSensorObj o)
  | position => handle (GPSPositionObj o)
  | velocity => handle (GPSVelocityObj o)
  | barometer => handle (BaroSensorObj o)
  | airspeed => handle (AirspeedSensorObj o)
  end.

Definition channel3 (n : shortname3) : SensorChannel :=
  match n with
  | Gyr => gyroscope
  | Acc => accelerometer
  | Mag => magnetometer
  | Pos => position
  | Vel => velocity
  end.

Definition channel1 (n : shortname1) : SensorChannel :=
  match n with
  | Bar => barometer
  | Ias => airspeed
  end.

Definition channels : list SensorChannel :=
  [gyroscope; accelerometer; magnetometer; position; velocity; barometer; airspeed].

(** Whether a notification is one for channel [c]. *)
Definition notifies (c : SensorChannel) (o : objects) (ev : option UAVObjEvent) : bool :=
  match ev with
  | None => false
  | Some e => obj e =? channel_handle c o
  end.

(** The bits of the channels whose object is the one named by the event. *)
Definition matching_bits (ev : UAVObjEvent) (o : objects) : Z :=
  fold_right (fun c m => if obj ev =? channel_handle c o then Z.lor (channel_bit c) m else m)
             0 channels.

(** The raw three-component sample behind a snapshot member. *)
Definition raw3 (n : shortname3) (o : objects) : vec float 3 :=
  match n with
  | Gyr => let s := data (GyroSensorObj o) in
           [# GyroSensor_x s; GyroSensor_y s; GyroSensor_z s]
  | Acc => let s := data (AccelSensorObj o) in
           [# AccelSensor_x s; AccelSensor_y s; AccelSensor_z s]
  | Mag => let s := data (MagnetoSensorObj o) in
           [# MagnetoSensor_x s; MagnetoSensor_y s; MagnetoSensor_z s]
  | Vel => let s := data (GPSVelocityObj o) in
           [# GPSVelocity_North s; GPSVelocity_East s; GPSVelocity_Down s]
  | Pos => let s := data (GPSPositionObj o) in
           [# GPSPosition_Latitude s; GPSPosition_Longitude s; GPSPosition_Altitude s]
  end.

(** All three components pass the check. *)
Definition sane3 (sane : float -> bool) (v : vec float 3) : bool :=
  sane (v !!! 0%fin) && sane (v !!! 1%fin) && sane (v !!! 2%fin).

(** The validity check of a home reference: latitude, longitude,
    altitude and the three components of the magnetic field are sane. *)
Definition home_sane (sane : float -> bool) (home : HomeLocationData) : bool :=
  sane (HomeLocation_Latitude home) && sane (HomeLocation_Longitude home)
  && sane (HomeLocation_Altitude home) && sane (HomeLocation_Be home !!! 0%fin)
  && sane (HomeLocation_Be home !!! 1%fin) && sane (HomeLocation_Be home !!! 2%fin).

(** The test of the source on the position sample: the home reference
    is set, the three coordinates are sane, and the magnitude of the
    latitude exceeds [1e-5f]. *)
Definition position_test (sane : float -> bool) (home : HomeLocationData)
    (s : GPSPositionData) : bool :=
  set_eqb (HomeLocation_Set home) HOMELOCATION_SET_TRUE
  && sane (GPSPosition_Latitude s) && sane (GPSPosition_Longitude s)
  && sane (GPSPosition_Altitude s)
  && (fabsf (GPSPosition_Latitude s) > c_1e_5f)%f32.

(** The conversion of section 4.2, in the words of the specification:
    the raw angles count 1e-7 degree. *)
Definition to_radians (d : float) : float := DEG2RAD (d / c_10_0e6f)%f32.

Definition LinearizationMatrix (cosf : float -> float) (home : HomeLocationData)
  : vec float 3 :=
  let R_n := (c_6_378137E6f + HomeLocation_Altitude home)%f32 in
  [# R_n; (R_n * cosf (to_radians (HomeLocation_Latitude home)))%f32; c_m1_0f].

Definition toNED (position : GPSPositionData) (home : HomeLocationData)
    (matrix : vec float 3) : vec float 3 :=
  let dLat := to_radians (GPSPosition_Latitude position - HomeLocation_Latitude home)%f32 in
  let dLon := to_radians (GPSPosition_Longitude position - HomeLocation_Longitude home)%f32 in
  let dAlt := (GPSPosition_Altitude position + GPSPosition_GeoidSeparation position
               - HomeLocation_Altitude home)%f32 in
  vzip_with fmul [# dLat; dLon; dAlt] matrix.

(** The chain traversal in the words of section 4.3 of the
    specification: every unit is updated once, in chain order, on the
    snapshot the previous unit left, and a failing status does not stop
    the walk.  Nothing in the sources does this. *)
Fixpoint traverse (chain : filtereQueue) (state : stateEstimation) : stateEstimation :=
  match chain with
  | [] => state
  | f :: rest => traverse rest (snd (update f state))
  end.

(** Modelled from the spec: [sane] is missing from the sources; section
    4.1 rejects NaN and the infinities, and gives no further bound. *)
Definition sane_finite (value : float) : bool := is_finite value.

(** ** Concrete data for the examples *)

Definition zero3 : vec float 3 := [# fzero; fzero; fzero].
Definition zero1 : vec float 1 := [# fzero].

Definition sensors_zero : stateEstimation :=
  {| gyr := zero3; acc := zero3; mag := zero3; pos := zero3; vel := zero3;
     bar := zero1; ias := zero1; updated := 0 |}.

Definition home_zero : HomeLocationData :=
  {| HomeLocation_Set := HOMELOCATION_SET_FALSE;
     HomeLocation_Latitude := fzero; HomeLocation_Longitude := fzero;
     HomeLocation_Altitude := fzero; HomeLocation_Be := zero3 |}.

(** Every object registered under its own handle; the values not given
    are zero. *)
Definition objects_with (gyro : GyroSensorData) (air : AirspeedSensorData)
    (gps : GPSPositionData) (home : HomeLocationData) : objects :=
  {| GyroSensorObj := {| handle := 1; data := gyro |};
     AccelSensorObj := {| handle := 2;
       data := {| AccelSensor_x := fzero; AccelSensor_y := fzero; AccelSensor_z := fzero |} |};
     MagnetoSensorObj := {| handle := 3;
       data := {| MagnetoSensor_x := fzero; MagnetoSensor_y := fzero;
                  MagnetoSensor_z := fzero |} |};
     BaroSensorObj := {| handle := 4; data := {| BaroSensor_Altitude := fzero |} |};
     AirspeedSensorObj := {| handle := 5; data := air |};
     GPSPositionObj := {| handle := 6; data := gps |};
     GPSVelocityObj := {| handle := 7;
       data := {| GPSVelocity_North := fzero; GPSVelocity_East := fzero;
                  GPSVelocity_Down := fzero |} |};
     HomeLocationObj := {| handle := 8; data := home |};
     RevoSettingsObj := {| handle := 9; data := [] |};
     created := 64 |}.

Definition gyro_zero : GyroSensorData :=
  {| GyroSensor_x := fzero; GyroSensor_y := fzero; GyroSensor_z := fzero |}.

Definition air_zero : AirspeedSensorData :=
  {| AirspeedSensor_CalibratedAirspeed := fzero;
     AirspeedSensor_SensorConnected := AIRSPEEDSENSOR_SENSORCONNECTED_FALSE |}.

Definition gps_zero : GPSPositionData :=
  {| GPSPosition_Latitude := fzero; GPSPosition_Longitude := fzero;
     GPSPosition_Altitude := fzero; GPSPosition_GeoidSeparation := fzero |}.

Definition store0 : objects := objects_with gyro_zero air_zero gps_zero home_zero.

(** The private variables as the loader leaves them: all zero. *)
Definition vars0 : statics :=
  {| stateEstimationCallback := 0; revoSettings := []; homeLocation := home_zero;
     LLA2NEDM := zero3; updatedSensors := 0 |}.

Definition world0 : world := {| store := store0; vars := vars0; calls := [] |}.

(** A world with the given objects and dirty set, nothing else set up. *)
Definition world_with (o : objects) (dirty : Z) : world :=
  {| store := o; vars := set_updatedSensors dirty vars0; calls := [] |}.

(** The value of [cosf] at 0, which is the only point where the examples
    evaluate it. *)
Definition cosf_at_zero (x : float) : float := Z2F 1.

(** A home reference on the equator at the Greenwich meridian, altitude
    0, declared set; and the world in which the settings handler has seen
    it. *)
Definition home_equator : HomeLocationData :=
  {| HomeLocation_Set := HOMELOCATION_SET_TRUE;
     HomeLocation_Latitude := fzero; HomeLocation_Longitude := fzero;
     HomeLocation_Altitude := fzero; HomeLocation_Be := zero3 |}.

Definition world_home (gps : GPSPositionData) (dirty : Z) : world :=
  after (settingsUpdatedCb sane_finite cosf_at_zero None)
        (world_with (objects_with gyro_zero air_zero gps home_equator) dirty).

(** A home reference whose altitude is NaN. *)
Definition home_nan : HomeLocationData :=
  {| HomeLocation_Set := HOMELOCATION_SET_TRUE;
     HomeLocation_Latitude := fzero; HomeLocation_Longitude := fzero;
     HomeLocation_Altitude := S754_nan; HomeLocation_Be := zero3 |}.

(** A position at the home reference with one metre of geoid separation. *)
Definition gps_geoid : GPSPositionData :=
  {| GPSPosition_Latitude := fzero; GPSPosition_Longitude := fzero;
     GPSPosition_Altitude := fzero; GPSPosition_GeoidSeparation := Z2F 1 |}.

(** A position on the equator, 10 degrees east, 100 m up. *)
Definition gps_east : GPSPositionData :=
  {| GPSPosition_Latitude := fzero; GPSPosition_Longitude := Z2F 100000000;
     GPSPosition_Altitude := Z2F 100; GPSPosition_GeoidSeparation := fzero |}.

(** The gyroscope sample (0.1, -0.1, 0.0) rad/s of the specification. *)
Definition gyro_sample : GyroSensorData :=
  {| GyroSensor_x := (Z2F 1 / Z2F 10)%f32; GyroSensor_y := (Z2F (-1) / Z2F 10)%f32;
     GyroSensor_z := fzero |}.

(** An airspeed of 12 m/s from a connected sensor. *)
Definition air_sample : AirspeedSensorData :=
  {| AirspeedSensor_CalibratedAirspeed := Z2F 12;
     AirspeedSensor_SensorConnected := AIRSPEEDSENSOR_SENSORCONNECTED_TRUE |}.

(** A position at 45 degrees north on the Greenwich meridian, 100 m up,
    and the world in which the settings handler has seen the home
    reference with the NaN altitude while that position waits to be
    drained. *)
Definition gps_north : GPSPositionData :=
  {| GPSPosition_Latitude := Z2F 450000000; GPSPosition_Longitude := fzero;
     GPSPosition_Altitude := Z2F 100; GPSPosition_GeoidSeparation := fzero |}.

Definition world_nan_home : world :=
  after (settingsUpdatedCb sane_finite cosf_at_zero None)
        (world_with (objects_with gyro_zero air_zero gps_north home_nan) pos_UPDATED).

(** Two mock filters: [filterA] writes 5 to [gyr[0]], [filterB] copies
    [gyr[0]] to [acc[0]]; [filterNone] touches nothing. *)
Definition filterA : stateFilter :=
  {| init := fun _ => 0;
     update := fun s => (0, set_member3 Gyr (vinsert 0%fin (Z2F 5) (gyr s)) s) |}.

Definition filterB : stateFilter :=
  {| init := fun _ => 0;
     update := fun s => (0, set_member3 Acc (vinsert 0%fin (gyr s !!! 0%fin) (acc s)) s) |}.

Definition filterNone : stateFilter :=
  {| init := fun _ => 0; update := fun s => (0, s) |}.

(** ** Vocabulary for the whole cycle *)

(** The object behind a channel, as the connect calls name it. *)
Definition channel_objname (c : SensorChannel) : objname :=
  match c with
  | gyroscope => oGyroSensor
  | accelerometer => oAccelSensor
  | magnetometer => oMagnetoSensor
  | position => oGPSPosition
  | velocity => oGPSVelocity
  | barometer => oBaroSensor
  | airspeed => oAirspeedSensor
  end.

(** The test [StateEstimationCb] applies to the sample of a channel
    before it admits it: the three-component channels and the barometer
    need sane components, the airspeed a connected sensor as well, the
    position the test of its own block. *)
Definition gate_passes (sane : float -> bool) (c : SensorChannel) (w : world) : bool :=
  match c with
  | gyroscope => sane3 sane (raw3 Gyr (store w))
  | accelerometer => sane3 sane (raw3 Acc (store w))
  | magnetometer => sane3 sane (raw3 Mag (store w))
  | velocity => sane3 sane (raw3 Vel (store w))
  | barometer => sane (BaroSensor_Altitude (data (BaroSensorObj (store w))))
  | airspeed =>
      sane (AirspeedSensor_CalibratedAirspeed (data (AirspeedSensorObj (store w))))
      && connected_eqb (AirspeedSensor_SensorConnected (data (AirspeedSensorObj (store w))))
           AIRSPEEDSENSOR_SENSORCONNECTED_TRUE
  | position => position_test sane (homeLocation (vars w)) (data (GPSPositionObj (store w)))
  end.

(** What a gate writes into its member when it admits the sample: the
    raw components, or for the position what [getNED] makes of them. *)
Definition admitted3 (n : shortname3) (s0 : stateEstimation) (w : world) : vec float 3 :=
  match n with
  | Pos => result (getNED (data (GPSPositionObj (store w))) (pos s0)) w
  | _ => raw3 n (store w)
  end.

Definition admitted1 (n : shortname1) (w : world) : vec float 1 :=
  match n with
  | Bar => [# BaroSensor_Altitude (data (BaroSensorObj (store w)))]
  | Ias => [# AirspeedSensor_CalibratedAirspeed (data (AirspeedSensorObj (store w)))]
  end.

(** The bits of the mask that belong to no channel are the same in both
    snapshots. *)
Definition foreign_kept (s s' : stateEstimation) : Prop :=
  forall n, (forall c, channel_index c <> n) ->
            Z.testbit (updated s') n = Z.testbit (updated s) n.

(** A notification that carries an event. *)
Definition is_notification (ev : option UAVObjEvent) : bool :=
  match ev with
  | Some _ => true
  | None => false
  end.

(** The registrations of [settingsUpdatedCb] on the settings object. *)
Definition is_settings_registration (c : call) : bool :=
  match c with
  | ConnectCallback oRevoSettings cb_settingsUpdatedCb => true
  | _ => false
  end.

(** The three home coordinates and the three coordinates of a position,
    in the order of the components [getNED] derives from them. *)
Definition home_coordinates (home : HomeLocationData) : vec float 3 :=
  [# HomeLocation_Latitude home; HomeLocation_Longitude home; HomeLocation_Altitude home].

(** What a step on channel [c] may change: the member and the bit of [c],
    nothing else of the snapshot. *)
Definition others_kept (c : SensorChannel) (s s' : stateEstimation) : Prop :=
  (forall m, channel3 m <> c -> member3 m s' = member3 m s) /\
  (forall m, channel1 m <> c -> member1 m s' = member1 m s) /\
  (forall c', c' <> c ->
     Z.testbit (updated s') (channel_index c') = Z.testbit (updated s) (channel_index c')).

(** The member and the bit of [c] are the same in both snapshots. *)
Definition kept (c : SensorChannel) (s s' : stateEstimation) : Prop :=
  (forall m, channel3 m = c -> member3 m s' = member3 m s) /\
  (forall m, channel1 m = c -> member1 m s' = member1 m s) /\
  Z.testbit (updated s') (channel_index c) = Z.testbit (updated s) (channel_index c).

(** ** The dirty set under interleaving

    [updatedSensors] is declared [volatile] and nothing more: the source
    takes no lock and masks no interrupt around it.  Each compound
    assignment, [updatedSensors ^= sensors.updated] in the cycle and
    [updatedSensors |= bit] in the notification, is a load of the variable
    followed by a store to it.  The definitions below list the accesses
    one activation of each function makes, in program order, and run
    several activations under a schedule that says whose access is next. *)

(** One access to [updatedSensors]. *)
Inductive access : Type :=
| test_empty            (* if (updatedSensor == 0) { ... alarm = 1; } *)
| load_snapshot         (* sensors.updated = updatedSensors;          *)
| load_tmp              (* the load of [^=] and of [|=]               *)
| store_xor             (* the store of [updatedSensors ^= sensors.updated] *)
| store_or (bit : Z).   (* the store of [updatedSensors |= bit]       *)

(** What an activation keeps of the dirty set: the locals [alarm] and
    [sensors.updated] of [StateEstimationCb], and the value a compound
    assignment has loaded and not yet stored back. *)
Record locals : Type := {
  alarm : bool;
  sensors_updated : Z;
  tmp : Z
}.

(** One access, on the shared variable [u] and the locals [l]. *)
Definition perform (a : access) (u : Z) (l : locals) : Z * locals :=
  match a with
  | test_empty =>
      (u, {| alarm := u =? 0; sensors_updated := sensors_updated l; tmp := tmp l |})
  | load_snapshot =>
      (u, {| alarm := alarm l; sensors_updated := u; tmp := tmp l |})
  | load_tmp =>
      (u, {| alarm := alarm l; sensors_updated := sensors_updated l; tmp := u |})
  | store_xor => (Z.lxor (tmp l) (sensors_updated l), l)
  | store_or bit => (Z.lor (tmp l) bit, l)
  end.

(** The accesses of [StateEstimationCb]: the test on entry, then
    [sensors.updated = updatedSensors; updatedSensors ^= sensors.updated;].
    The rest of the function works on its locals and on the objects. *)
Definition StateEstimationCb_accesses : list access :=
  [test_empty; load_snapshot; load_tmp; store_xor].

(** The accesses of [sensorUpdatedCb]: none for a null event, otherwise
    one [|=] for each of the seven tests that succeeds, in the order of
    the source. *)
Definition sensorUpdatedCb_accesses (ev : option UAVObjEvent) (o : objects) : list access :=
  match ev with
  | None => []
  | Some e =>
      flat_map (fun c => if obj e =? channel_handle c o
                         then [load_tmp; store_or (channel_bit c)] else [])
               channels
  end.

(** The accesses of an uninterrupted activation, one after the other. *)
Definition perform_all (accs : list access) (u : Z) (l : locals) : Z * locals :=
  fold_left (fun ul a => perform a (fst ul) (snd ul)) accs (u, l).

(** An activation of one of the two functions: its locals and the
    accesses it has still to make. *)
Record activation : Type := {
  frame : locals;
  pending : list access
}.

(** [alarm = 0] as the cycle initialises it; the other locals hold
    nothing that is read before it is written. *)
Definition entered (accs : list access) : activation :=
  {| frame := {| alarm := false; sensors_updated := 0; tmp := 0 |}; pending := accs |}.

(** Modelled from the spec: notifications come from independent
    concurrent producers while a single worker runs the cycles; the task
    scheduler that switches between them is not part of the source file.
    A machine is the shared [updatedSensors] and the activations in
    flight; a schedule names, access by access, the activation that runs
    next. *)
Record machine : Type := {
  shared : Z;
  activations : list activation
}.

(** Modelled from the spec: activation [i] makes its next access; an
    activation that has returned makes none. *)
Definition step (m : machine) (i : nat) : machine :=
  match activations m !! i with
  | Some f =>
      match pending f with
      | a :: rest =>
          let ul := perform a (shared m) (frame f) in
          {| shared := fst ul;
             activations := <[i := {| frame := snd ul; pending := rest |}]> (activations m) |}
      | [] => m
      end
  | None => m
  end.

(** Modelled from the spec: the machine after a schedule. *)
Definition interleave (schedule : list nat) (m : machine) : machine :=
  fold_left step schedule m.

(** [sensors.updated] of activation [i], the mask it drained. *)
Definition drained_by (i : nat) (m : machine) : Z :=
  match activations m !! i with
  | Some f => sensors_updated (frame f)
  | None => 0
  end.

(** Every activation has returned. *)
Definition quiescent (m : machine) : bool :=
  forallb (fun f => match pending f with [] => true | _ => false end) (activations m).

(** A gyroscope notification that returns, then an accelerometer
    notification that the first cycle preempts between the load and the
    store of its [|=]; the notification resumes when that cycle has
    returned, and the second cycle runs last. *)
Definition revived_machine : machine :=
  {| shared := 0;
     activations := [entered (sensorUpdatedCb_accesses (Some {| obj := 1 |}) store0);
                     entered (sensorUpdatedCb_accesses (Some {| obj := 2 |}) store0);
                     entered StateEstimationCb_accesses;
                     entered StateEstimationCb_accesses] |}.

Definition revived_schedule : list nat := [0; 0; 1; 2; 2; 2; 2; 1; 3; 3; 3; 3]%nat.

(** A cycle that an accelerometer notification preempts between the load
    and the store of its [^=]; the notification returns, the cycle
    resumes and returns, and a second cycle runs last. *)
Definition lost_machine : machine :=
  {| shared := 0;
     activations := [entered StateEstimationCb_accesses;
                     entered (sensorUpdatedCb_accesses (Some {| obj := 2 |}) store0);
                     entered StateEstimationCb_accesses] |}.

Definition lost_schedule : list nat := [0; 0; 0; 1; 1; 0; 2; 2; 2; 2]%nat.

(** * Properties *)

(** ** Bit masks *)

Lemma channel_bit_pow2 c : channel_bit c = 2 ^ channel_index c.
Proof. destruct c; reflexivity. Qed.

Lemma channel_index_nonneg c : 0 <= channel_index c.
Proof. destruct c; simpl; lia. Qed.

Lemma channel_index_inj c c' : channel_index c = channel_index c' -> c = c'.
Proof. destruct c, c'; simpl; intros H; try reflexivity; discriminate H. Qed.

Lemma UPDATED3_channel n : UPDATED3 n = channel_bit (channel3 n).
Proof. destruct n; reflexivity. Qed.

Lemma UPDATED1_channel n : UPDATED1 n = channel_bit (channel1 n).
Proof. destruct n; reflexivity. Qed.

Lemma land_pow2 u k :
  0 <= k -> Z.land u (2 ^ k) = if Z.testbit u k then 2 ^ k else 0.
Proof.
  intros Hk. apply Z.bits_inj'. intros n Hn.
  rewrite Z.land_spec, Z.pow2_bits_eqb by assumption.
  destruct (Z.eqb_spec k n) as [->|Hne].
  - destruct (Z.testbit u n); simpl.
    + rewrite Z.pow2_bits_eqb, Z.eqb_refl by assumption. reflexivity.
    + rewrite Z.bits_0. reflexivity.
  - rewrite andb_false_r. destruct (Z.testbit u k).
    + rewrite Z.pow2_bits_eqb by assumption.
      symmetry. apply Z.eqb_neq. assumption.
    + rewrite Z.bits_0. reflexivity.
Qed.

Lemma ISSET_channel u c : ISSET u (channel_bit c) = Z.testbit u (channel_index c).
Proof.
  unfold ISSET. rewrite channel_bit_pow2, land_pow2 by apply channel_index_nonneg.
  destruct (Z.testbit u (channel_index c)).
  - destruct (Z.eqb_spec (2 ^ channel_index c) 0) as [H|_]; [|reflexivity].
    pose proof (Z.pow_pos_nonneg 2 (channel_index c) ltac:(lia) (channel_index_nonneg c)).
    lia.
  - reflexivity.
Qed.

Lemma UNSET_channel u c n :
  0 <= n ->
  Z.testbit (UNSET u (channel_bit c)) n = Z.testbit u n && negb (channel_index c =? n).
Proof.
  intros Hn. unfold UNSET.
  rewrite Z.land_spec, Z.lnot_spec, channel_bit_pow2 by assumption.
  rewrite Z.pow2_bits_eqb by apply channel_index_nonneg. reflexivity.
Qed.

Lemma UNSET_channel_same u c : ISSET (UNSET u (channel_bit c)) (channel_bit c) = false.
Proof.
  rewrite ISSET_channel, UNSET_channel by apply channel_index_nonneg.
  rewrite Z.eqb_refl. apply andb_false_r.
Qed.

Lemma UNSET_channel_other u c c' :
  c' <> c ->
  Z.testbit (UNSET u (channel_bit c)) (channel_index c') = Z.testbit u (channel_index c').
Proof.
  intros Hne. rewrite UNSET_channel by apply channel_index_nonneg.
  destruct (Z.eqb_spec (channel_index c) (channel_index c')) as [H|_].
  - apply channel_index_inj in H. congruence.
  - apply andb_true_r.
Qed.

Lemma lor_channel u c n :
  Z.testbit (Z.lor u (channel_bit c)) n = Z.testbit u n || (channel_index c =? n).
Proof.
  rewrite Z.lor_spec, channel_bit_pow2.
  rewrite Z.pow2_bits_eqb by apply channel_index_nonneg. reflexivity.
Qed.

(** ** Commands *)

Lemma result_bind {A B} (c : M A) (k : A -> M B) w :
  result (c ≫= k) w = result (k (result c w)) (after c w).
Proof.
  unfold result, after, mbind, M_bind, bind. destruct (c w). reflexivity.
Qed.

Lemma after_bind {A B} (c : M A) (k : A -> M B) w :
  after (c ≫= k) w = after (k (result c w)) (after c w).
Proof.
  unfold result, after, mbind, M_bind, bind. destruct (c w). reflexivity.
Qed.

Lemma run_pair {A} (c : M A) w : c w = (result c w, after c w).
Proof. unfold result, after. destruct (c w). reflexivity. Qed.

(** Unfolds the plumbing of a command and nothing of what it computes. *)
Ltac run_cmd :=
  cbv beta iota zeta delta
    [result after mbind M_bind bind mret M_ret ret Get Handle read write extern
     when or_updatedSensors fst snd].

(** ** Snapshot members *)

Lemma vinsert3 (a b c : float) (v : vec float 3) :
  vinsert 2%fin c (vinsert 1%fin b (vinsert 0%fin a v)) = [# a; b; c].
Proof. inv_vec v. intros. reflexivity. Qed.

Lemma vinsert1 (a : float) (v : vec float 1) : vinsert 0%fin a v = [# a].
Proof. inv_vec v. intros. reflexivity. Qed.

Lemma member3_set_same n v s : member3 n (set_member3 n v s) = v.
Proof. destruct n; reflexivity. Qed.

Lemma member3_set_other m n v s : m <> n -> member3 m (set_member3 n v s) = member3 m s.
Proof. destruct m, n; intros H; try reflexivity; congruence. Qed.

Lemma member1_set_same n v s : member1 n (set_member1 n v s) = v.
Proof. destruct n; reflexivity. Qed.

Lemma member1_set_other m n v s : m <> n -> member1 m (set_member1 n v s) = member1 m s.
Proof. destruct m, n; intros H; try reflexivity; congruence. Qed.

Lemma member1_Ias s : member1 Ias s = ias s.
Proof. reflexivity. Qed.

Lemma set_member3_twice n v v' s : set_member3 n v' (set_member3 n v s) = set_member3 n v' s.
Proof. destruct n; reflexivity. Qed.

Lemma others_kept_refl c s : others_kept c s s.
Proof. split; [|split]; intros; reflexivity. Qed.

Lemma others_kept_set_member3 n v s : others_kept (channel3 n) s (set_member3 n v s).
Proof.
  split; [|split].
  - intros m Hm. apply member3_set_other. congruence.
  - intros m _. destruct n, m; reflexivity.
  - intros c' _. destruct n; reflexivity.
Qed.

Lemma others_kept_set_member1 n v s : others_kept (channel1 n) s (set_member1 n v s).
Proof.
  split; [|split].
  - intros m _. destruct n, m; reflexivity.
  - intros m Hm. apply member1_set_other. congruence.
  - intros c' _. destruct n; reflexivity.
Qed.

Lemma others_kept_UNSET c s :
  others_kept c s (set_updated (UNSET (updated s) (channel_bit c)) s).
Proof.
  split; [|split].
  - intros m _. destruct m; reflexivity.
  - intros m _. destruct m; reflexivity.
  - intros c' Hc. simpl. apply UNSET_channel_other. assumption.
Qed.

Lemma others_kept_kept c c' s s' : c <> c' -> others_kept c' s s' -> kept c s s'.
Proof.
  intros Hne (H3 & H1 & Hb). split; [|split].
  - intros m Hm. apply H3. congruence.
  - intros m Hm. apply H1. congruence.
  - apply Hb. assumption.
Qed.

Lemma kept_trans c s1 s2 s3 : kept c s1 s2 -> kept c s2 s3 -> kept c s1 s3.
Proof.
  intros (A3 & A1 & Ab) (B3 & B1 & Bb). split; [|split].
  - intros m Hm. rewrite B3, A3 by assumption. reflexivity.
  - intros m Hm. rewrite B1, A1 by assumption. reflexivity.
  - rewrite Bb, Ab. reflexivity.
Qed.

Section Properties.

Variable sane : float -> bool.
Variable cosf : float -> float.

(** ** The sanity gates, one step at a time *)

Section Check3.

Context {D : Type} (o : objects -> uavobj D) (n : shortname3) (a1 a2 a3 : D -> float).

Lemma SANITYCHECK3_after s w : after (SANITYCHECK3 sane o n a1 a2 a3 s) w = w.
Proof.
  unfold SANITYCHECK3. destruct (ISSET _ _); [|reflexivity].
  run_cmd. destruct (sane _ && sane _ && sane _); reflexivity.
Qed.

Lemma SANITYCHECK3_skip s w :
  ISSET (updated s) (UPDATED3 n) = false ->
  result (SANITYCHECK3 sane o n a1 a2 a3 s) w = s.
Proof. intros H. unfold SANITYCHECK3. rewrite H. reflexivity. Qed.

Lemma SANITYCHECK3_admit s w :
  let d := data (o (store w)) in
  ISSET (updated s) (UPDATED3 n) = true ->
  sane3 sane [# a1 d; a2 d; a3 d] = true ->
  result (SANITYCHECK3 sane o n a1 a2 a3 s) w = set_member3 n [# a1 d; a2 d; a3 d] s.
Proof.
  intros d H Hs. unfold SANITYCHECK3. rewrite H.
  unfold sane3 in Hs. simpl in Hs.
  run_cmd. fold d. rewrite Hs.
  rewrite !member3_set_same, !set_member3_twice, vinsert3. reflexivity.
Qed.

Lemma SANITYCHECK3_reject s w :
  let d := data (o (store w)) in
  ISSET (updated s) (UPDATED3 n) = true ->
  sane3 sane [# a1 d; a2 d; a3 d] = false ->
  result (SANITYCHECK3 sane o n a1 a2 a3 s) w
  = set_updated (UNSET (updated s) (UPDATED3 n)) s.
Proof.
  intros d H Hs. unfold SANITYCHECK3. rewrite H.
  unfold sane3 in Hs. simpl in Hs.
  run_cmd. fold d. rewrite Hs. reflexivity.
Qed.

Lemma SANITYCHECK3_others_kept s w :
  others_kept (channel3 n) s (result (SANITYCHECK3 sane o n a1 a2 a3 s) w).
Proof.
  destruct (ISSET (updated s) (UPDATED3 n)) eqn:H.
  - destruct (sane3 sane [# a1 (data (o (store w))); a2 (data (o (store w)));
                            a3 (data (o (store w)))]) eqn:Hs.
    + rewrite SANITYCHECK3_admit by assumption. apply others_kept_set_member3.
    + rewrite SANITYCHECK3_reject by assumption.
      rewrite UPDATED3_channel. apply others_kept_UNSET.
  - rewrite SANITYCHECK3_skip by assumption. apply others_kept_refl.
Qed.

End Check3.

Section Check1.

Context {D : Type} (o : objects -> uavobj D) (n : shortname1) (a1 : D -> float)
  (EXTRACHECK : D -> bool).

Lemma SANITYCHECK1_after s w : after (SANITYCHECK1 sane o n a1 EXTRACHECK s) w = w.
Proof.
  unfold SANITYCHECK1. destruct (ISSET _ _); [|reflexivity].
  run_cmd. destruct (sane _ && EXTRACHECK _); reflexivity.
Qed.

Lemma SANITYCHECK1_skip s w :
  ISSET (updated s) (UPDATED1 n) = false ->
  result (SANITYCHECK1 sane o n a1 EXTRACHECK s) w = s.
Proof. intros H. unfold SANITYCHECK1. rewrite H. reflexivity. Qed.

Lemma SANITYCHECK1_admit s w :
  let d := data (o (store w)) in
  ISSET (updated s) (UPDATED1 n) = true ->
  sane (a1 d) && EXTRACHECK d = true ->
  result (SANITYCHECK1 sane o n a1 EXTRACHECK s) w = set_member1 n [# a1 d] s.
Proof.
  intros d H Hs. unfold SANITYCHECK1. rewrite H.
  run_cmd. fold d. rewrite Hs, vinsert1. reflexivity.
Qed.

Lemma SANITYCHECK1_reject s w :
  let d := data (o (store w)) in
  ISSET (updated s) (UPDATED1 n) = true ->
  sane (a1 d) && EXTRACHECK d = false ->
  result (SANITYCHECK1 sane o n a1 EXTRACHECK s) w
  = set_updated (UNSET (updated s) (UPDATED1 n)) s.
Proof.
  intros d H Hs. unfold SANITYCHECK1. rewrite H.
  run_cmd. fold d. rewrite Hs. reflexivity.
Qed.

Lemma SANITYCHECK1_others_kept s w :
  others_kept (channel1 n) s (result (SANITYCHECK1 sane o n a1 EXTRACHECK s) w).
Proof.
  destruct (ISSET (updated s) (UPDATED1 n)) eqn:H.
  - destruct (sane (a1 (data (o (store w)))) && EXTRACHECK (data (o (store w)))) eqn:Hs.
    + rewrite SANITYCHECK1_admit by assumption. apply others_kept_set_member1.
    + rewrite SANITYCHECK1_reject by assumption.
      rewrite UPDATED1_channel. apply others_kept_UNSET.
  - rewrite SANITYCHECK1_skip by assumption. apply others_kept_refl.
Qed.

End Check1.

(** ** The position gate *)

Lemma getNED_after p NED w : after (getNED p NED) w = w.
Proof. reflexivity. Qed.

Lemma getNED_result p NED w :
  result (getNED p NED) w
  = vzip_with fmul (LLA2NEDM (vars w))
      [# to_radians (GPSPosition_Latitude p - HomeLocation_Latitude (homeLocation (vars w)));
         to_radians (GPSPosition_Longitude p - HomeLocation_Longitude (homeLocation (vars w)));
         GPSPosition_Altitude p + GPSPosition_GeoidSeparation p
           - HomeLocation_Altitude (homeLocation (vars w)) ]%f32.
Proof.
  unfold getNED. run_cmd. rewrite vinsert3.
  generalize (LLA2NEDM (vars w)). intros m. inv_vec m. intros. reflexivity.
Qed.

Lemma getNED_world p NED w w' :
  homeLocation (vars w) = homeLocation (vars w') ->
  LLA2NEDM (vars w) = LLA2NEDM (vars w') ->
  result (getNED p NED) w = result (getNED p NED) w'.
Proof. intros Hh Hm. rewrite !getNED_result, Hh, Hm. reflexivity. Qed.

Lemma POSITIONCHECK_after s w : after (POSITIONCHECK sane s) w = w.
Proof.
  unfold POSITIONCHECK. destruct (ISSET _ _); [|reflexivity].
  run_cmd. match goal with |- context [if ?c then _ else _] => destruct c end; reflexivity.
Qed.

Lemma POSITIONCHECK_skip s w :
  ISSET (updated s) pos_UPDATED = false -> result (POSITIONCHECK sane s) w = s.
Proof. intros H. unfold POSITIONCHECK. rewrite H. reflexivity. Qed.

Lemma POSITIONCHECK_test home p :
  set_eqb (HomeLocation_Set home) HOMELOCATION_SET_TRUE
  && sane (GPSPosition_Latitude p) && sane (GPSPosition_Longitude p)
  && sane (GPSPosition_Altitude p)
  && ((fabsf (GPSPosition_Latitude p) > c_1e_5f)%f32
      || (fabsf (GPSPosition_Latitude p) > c_1e_5f)%f32
      || (fabsf (GPSPosition_Latitude p) > c_1e_5f)%f32)
  = position_test sane home p.
Proof. unfold position_test. rewrite !orb_diag. reflexivity. Qed.

Lemma POSITIONCHECK_admit s w :
  let p := data (GPSPositionObj (store w)) in
  ISSET (updated s) pos_UPDATED = true ->
  position_test sane (homeLocation (vars w)) p = true ->
  result (POSITIONCHECK sane s) w = set_member3 Pos (result (getNED p (pos s)) w) s.
Proof.
  intros p H Ht. unfold POSITIONCHECK. rewrite H.
  run_cmd. fold p. rewrite POSITIONCHECK_test, Ht. reflexivity.
Qed.

Lemma POSITIONCHECK_reject s w :
  let p := data (GPSPositionObj (store w)) in
  ISSET (updated s) pos_UPDATED = true ->
  position_test sane (homeLocation (vars w)) p = false ->
  result (POSITIONCHECK sane s) w = set_updated (UNSET (updated s) pos_UPDATED) s.
Proof.
  intros p H Ht. unfold POSITIONCHECK. rewrite H.
  run_cmd. fold p. rewrite POSITIONCHECK_test, Ht. reflexivity.
Qed.

Lemma POSITIONCHECK_others_kept s w :
  others_kept position s (result (POSITIONCHECK sane s) w).
Proof.
  destruct (ISSET (updated s) pos_UPDATED) eqn:H.
  - destruct (position_test sane (homeLocation (vars w)) (data (GPSPositionObj (store w)))) eqn:Ht.
    + rewrite POSITIONCHECK_admit by assumption. apply (others_kept_set_member3 Pos).
    + rewrite POSITIONCHECK_reject by assumption. apply (others_kept_UNSET position).
  - rewrite POSITIONCHECK_skip by assumption. apply others_kept_refl.
Qed.

(** ** One estimation cycle, step by step *)

Lemma StateEstimationCb_run s0 w :
  let u := updatedSensors (vars w) in
  let w1 := {| store := store w; vars := set_updatedSensors 0 (vars w);
               calls := calls w ++ (if u =? 0
                                    then [AlarmsSet SYSTEMALARMS_ALARM_ATTITUDE
                                            SYSTEMALARMS_ALARM_WARNING]
                                    else []) |} in
  let s1 := result (SANITYCHECK3 sane GyroSensorObj Gyr GyroSensor_x GyroSensor_y
                      GyroSensor_z (set_updated u s0)) w1 in
  let s2 := result (SANITYCHECK3 sane AccelSensorObj Acc AccelSensor_x AccelSensor_y
                      AccelSensor_z s1) w1 in
  let s3 := result (SANITYCHECK3 sane MagnetoSensorObj Mag MagnetoSensor_x MagnetoSensor_y
                      MagnetoSensor_z s2) w1 in
  let s4 := result (SANITYCHECK3 sane GPSVelocityObj Vel GPSVelocity_North GPSVelocity_East
                      GPSVelocity_Down s3) w1 in
  let s5 := result (SANITYCHECK1 sane BaroSensorObj Bar BaroSensor_Altitude
                      (fun _ => true) s4) w1 in
  let s6 := result (SANITYCHECK1 sane AirspeedSensorObj Ias AirspeedSensor_CalibratedAirspeed
                      (fun s => connected_eqb (AirspeedSensor_SensorConnected s)
                                  AIRSPEEDSENSOR_SENSORCONNECTED_TRUE) s5) w1 in
  let s7 := result (POSITIONCHECK sane s6) w1 in
  StateEstimationCb sane s0 w
  = ({| drained := u; snapshot := s7 |},
     {| store := store w; vars := set_updatedSensors 0 (vars w);
        calls := calls w
                 ++ (if u =? 0
                     then [AlarmsSet SYSTEMALARMS_ALARM_ATTITUDE SYSTEMALARMS_ALARM_WARNING]
                     else [AlarmsClear SYSTEMALARMS_ALARM_ATTITUDE])
                 ++ [DelayedCallbackSchedule (stateEstimationCallback (vars w)) TIMEOUT_MS
                       UPDATEMODE_SOONER] |}).
Proof.
  intros u w1 s1 s2 s3 s4 s5 s6 s7.
  unfold StateEstimationCb. run_cmd. fold u.
  assert (Hw1 : w1 = {| store := store w; vars := set_updatedSensors 0 (vars w);
                        calls := calls w ++ (if u =? 0
                                             then [AlarmsSet SYSTEMALARMS_ALARM_ATTITUDE
                                                     SYSTEMALARMS_ALARM_WARNING]
                                             else []) |}) by reflexivity.
  clearbody w1.
  destruct (u =? 0) eqn:Hu; rewrite ?app_nil_r in Hw1; cbv beta iota;
    cbn [store vars calls updated set_updated];
    rewrite Z.lxor_nilpotent, <- ?Hw1;
    do 4 (rewrite (run_pair (SANITYCHECK3 _ _ _ _ _ _ _) w1), SANITYCHECK3_after);
    do 2 (rewrite (run_pair (SANITYCHECK1 _ _ _ _ _ _) w1), SANITYCHECK1_after);
    rewrite (run_pair (POSITIONCHECK _ _) w1), POSITIONCHECK_after;
    cbv beta iota; cbn [store vars calls Z.eqb];
    rewrite (f_equal store Hw1), (f_equal vars Hw1), (f_equal calls Hw1);
    cbn [store vars calls stateEstimationCallback set_updatedSensors];
    rewrite <- ?app_assoc; reflexivity.
Qed.

(** ** Steps on other channels leave a channel alone *)

Lemma kept_refl c s : kept c s s.
Proof. split; [|split]; intros; reflexivity. Qed.

Lemma kept_SANITYCHECK3 c {D} (o : objects -> uavobj D) n a1 a2 a3 s w :
  c <> channel3 n -> kept c s (result (SANITYCHECK3 sane o n a1 a2 a3 s) w).
Proof. intros H. eapply others_kept_kept; [exact H | apply SANITYCHECK3_others_kept]. Qed.

Lemma kept_SANITYCHECK1 c {D} (o : objects -> uavobj D) n a1 extra s w :
  c <> channel1 n -> kept c s (result (SANITYCHECK1 sane o n a1 extra s) w).
Proof. intros H. eapply others_kept_kept; [exact H | apply SANITYCHECK1_others_kept]. Qed.

Lemma kept_POSITIONCHECK c s w :
  c <> position -> kept c s (result (POSITIONCHECK sane s) w).
Proof. intros H. eapply others_kept_kept; [exact H | apply POSITIONCHECK_others_kept]. Qed.

(** Chains the three lemmas above through any run of gates. *)
Ltac keep :=
  repeat first
    [ eapply kept_trans;
      [ | first [ apply kept_SANITYCHECK3 | apply kept_SANITYCHECK1
                | apply kept_POSITIONCHECK ]; discriminate ]
    | apply kept_refl ].

Lemma kept_ISSET c s s' :
  kept c s s' -> ISSET (updated s') (channel_bit c) = ISSET (updated s) (channel_bit c).
Proof. intros (_ & _ & H). rewrite !ISSET_channel. exact H. Qed.

(** A three-component gate seen from the whole cycle: [sA] is the
    snapshot when the gates start, [sB] the one the gate receives, [sC]
    the one the cycle ends with. *)
Lemma gate3_between {D} (o : objects -> uavobj D) n a1 a2 a3 sA sB sC w :
  let d := data (o (store w)) in
  let raw := [# a1 d; a2 d; a3 d] in
  kept (channel3 n) sA sB ->
  kept (channel3 n) (result (SANITYCHECK3 sane o n a1 a2 a3 sB) w) sC ->
  ISSET (updated sA) (UPDATED3 n) = true ->
  if sane3 sane raw
  then member3 n sC = raw /\ ISSET (updated sC) (UPDATED3 n) = true
  else ISSET (updated sC) (UPDATED3 n) = false /\ member3 n sC = member3 n sA.
Proof.
  intros d raw KAB KC HA.
  pose proof (kept_ISSET _ _ _ KAB) as HB. rewrite <- UPDATED3_channel, HA in HB.
  pose proof (kept_ISSET _ _ _ KC) as HC. rewrite <- UPDATED3_channel in HC.
  destruct KC as (KC3 & _ & _). destruct KAB as (KAB3 & _ & _).
  rewrite HC, (KC3 n eq_refl).
  destruct (sane3 sane raw) eqn:Hs.
  - rewrite SANITYCHECK3_admit by assumption. fold d raw.
    rewrite member3_set_same. split; [reflexivity|].
    destruct n; exact HB.
  - rewrite SANITYCHECK3_reject by assumption. split.
    + simpl. rewrite UPDATED3_channel. apply UNSET_channel_same.
    + rewrite <- (KAB3 n eq_refl). destruct n; reflexivity.
Qed.

Lemma gate1_between {D} (o : objects -> uavobj D) n a1 extra sA sB sC w :
  let d := data (o (store w)) in
  kept (channel1 n) sA sB ->
  kept (channel1 n) (result (SANITYCHECK1 sane o n a1 extra sB) w) sC ->
  ISSET (updated sA) (UPDATED1 n) = true ->
  if sane (a1 d) && extra d
  then member1 n sC = [# a1 d] /\ ISSET (updated sC) (UPDATED1 n) = true
  else ISSET (updated sC) (UPDATED1 n) = false /\ member1 n sC = member1 n sA.
Proof.
  intros d KAB KC HA.
  pose proof (kept_ISSET _ _ _ KAB) as HB. rewrite <- UPDATED1_channel, HA in HB.
  pose proof (kept_ISSET _ _ _ KC) as HC. rewrite <- UPDATED1_channel in HC.
  destruct KC as (_ & KC1 & _). destruct KAB as (_ & KAB1 & _).
  rewrite HC, (KC1 n eq_refl).
  destruct (sane (a1 d) && extra d) eqn:Hs.
  - rewrite SANITYCHECK1_admit by assumption. fold d.
    rewrite member1_set_same. split; [reflexivity|].
    destruct n; exact HB.
  - rewrite SANITYCHECK1_reject by assumption. split.
    + simpl. rewrite UPDATED1_channel. apply UNSET_channel_same.
    + rewrite <- (KAB1 n eq_refl). destruct n; reflexivity.
Qed.

(** The two outcomes of a gate, read as the value of the bit and of the
    member. *)
Lemma gate_outcome {A} (b bit : bool) (x v y : A) :
  (if b then x = v /\ bit = true else bit = false /\ x = y) ->
  bit = b /\ x = if b then v else y.
Proof. destruct b; intros [H1 H2]; split; assumption. Qed.

Lemma position_between sA sB w :
  let p := data (GPSPositionObj (store w)) in
  let sC := result (POSITIONCHECK sane sB) w in
  kept position sA sB ->
  ISSET (updated sA) pos_UPDATED = true ->
  if position_test sane (homeLocation (vars w)) p
  then pos sC = result (getNED p (pos sA)) w /\ ISSET (updated sC) pos_UPDATED = true
  else ISSET (updated sC) pos_UPDATED = false /\ pos sC = pos sA.
Proof.
  intros p sC KAB HA. subst sC.
  pose proof (kept_ISSET _ _ _ KAB) as HB. change (channel_bit position) with pos_UPDATED in HB.
  rewrite HA in HB. destruct KAB as (KAB3 & _ & _).
  pose proof (KAB3 Pos eq_refl) as Hpos. simpl in Hpos.
  destruct (position_test sane (homeLocation (vars w)) p) eqn:Ht.
  - rewrite POSITIONCHECK_admit by assumption. fold p. rewrite Hpos.
    split; [reflexivity | exact HB].
  - rewrite POSITIONCHECK_reject by assumption. split.
    + apply (UNSET_channel_same _ position).
    + exact Hpos.
Qed.

(** ** The cycle as a whole *)

Lemma ISSET_nonzero u bit : ISSET u bit = true -> (u =? 0) = false.
Proof.
  unfold ISSET. destruct (Z.eqb_spec u 0) as [->|]; [|reflexivity].
  rewrite Z.land_0_l. discriminate.
Qed.

Lemma StateEstimationCb_emitted s0 w :
  emitted (StateEstimationCb sane s0) w
  = (if updatedSensors (vars w) =? 0
     then [AlarmsSet SYSTEMALARMS_ALARM_ATTITUDE SYSTEMALARMS_ALARM_WARNING]
     else [AlarmsClear SYSTEMALARMS_ALARM_ATTITUDE])
    ++ [DelayedCallbackSchedule (stateEstimationCallback (vars w)) TIMEOUT_MS
          UPDATEMODE_SOONER].
Proof.
  unfold emitted, after. rewrite StateEstimationCb_run. cbn [snd calls].
  apply drop_app_length.
Qed.

Lemma StateEstimationCb_drained s0 w :
  drained (result (StateEstimationCb sane s0) w) = updatedSensors (vars w).
Proof. unfold result. rewrite StateEstimationCb_run. reflexivity. Qed.

Lemma StateEstimationCb_vars s0 w :
  vars (after (StateEstimationCb sane s0) w) = set_updatedSensors 0 (vars w).
Proof. unfold after. rewrite StateEstimationCb_run. reflexivity. Qed.

Lemma StateEstimationCb_store s0 w :
  store (after (StateEstimationCb sane s0) w) = store w.
Proof. unfold after. rewrite StateEstimationCb_run. reflexivity. Qed.

(** C4: for a three-component channel (gyroscope, accelerometer,
    magnetometer, GPS velocity) whose bit was drained this cycle: when
    the three raw components are sane they are copied as they are into
    the snapshot and the bit stays set; when one of them is not, the bit
    is cleared in the snapshot and the member keeps what it held before
    the cycle.  Either way the cycle raises nothing: it clears the alarm
    and reschedules. *)
Theorem three_component_gate_fail_closed (n : shortname3) s0 w :
  n <> Pos ->
  ISSET (drained (result (StateEstimationCb sane s0) w)) (UPDATED3 n) = true ->
  let sensors := snapshot (result (StateEstimationCb sane s0) w) in
  let raw := raw3 n (store w) in
  (if sane3 sane raw
   then member3 n sensors = raw /\ ISSET (updated sensors) (UPDATED3 n) = true
   else ISSET (updated sensors) (UPDATED3 n) = false /\ member3 n sensors = member3 n s0)
  /\ emitted (StateEstimationCb sane s0) w
     = [AlarmsClear SYSTEMALARMS_ALARM_ATTITUDE;
        DelayedCallbackSchedule (stateEstimationCallback (vars w)) TIMEOUT_MS
          UPDATEMODE_SOONER].
Proof.
  intros Hn Hd sensors raw. rewrite StateEstimationCb_drained in Hd. split.
  - subst sensors raw. unfold result. rewrite StateEstimationCb_run. cbn [fst snapshot].
    change (member3 n s0)
      with (member3 n (set_updated (updatedSensors (vars w)) s0)).
    set (w1 := {| store := store w; vars := _; calls := _ |}).
    destruct n; try contradiction;
      (eapply (gate3_between _ _ _ _ _ (set_updated (updatedSensors (vars w)) s0) _ _ w1);
       [ | keep | exact Hd ]; keep).
  - rewrite StateEstimationCb_emitted, (ISSET_nonzero _ _ Hd). reflexivity.
Qed.

(** C9: when the airspeed bit was drained this cycle, the bit is still
    set in the snapshot exactly when the calibrated airspeed is sane and
    the sensor is reported connected; in that case the value is copied
    into the snapshot, otherwise the bit is cleared and the member keeps
    what it held before the cycle. *)
Theorem airspeed_gate s0 w :
  ISSET (drained (result (StateEstimationCb sane s0) w)) ias_UPDATED = true ->
  let sensors := snapshot (result (StateEstimationCb sane s0) w) in
  let s := data (AirspeedSensorObj (store w)) in
  let admitted :=
    sane (AirspeedSensor_CalibratedAirspeed s)
    && connected_eqb (AirspeedSensor_SensorConnected s) AIRSPEEDSENSOR_SENSORCONNECTED_TRUE in
  ISSET (updated sensors) ias_UPDATED = admitted
  /\ ias sensors = if admitted then [# AirspeedSensor_CalibratedAirspeed s] else ias s0.
Proof.
  intros Hd sensors s admitted. rewrite StateEstimationCb_drained in Hd.
  subst sensors. unfold result. rewrite StateEstimationCb_run. cbn [fst snapshot].
  set (w1 := {| store := store w; vars := _; calls := _ |}).
  match goal with
  | |- context [POSITIONCHECK sane (result (SANITYCHECK1 sane ?o Ias ?a1 ?extra ?sB0) w1)] =>
      set (sB := sB0);
      set (sC := result (POSITIONCHECK sane (result (SANITYCHECK1 sane o Ias a1 extra sB) w1))
                   w1);
      assert (K1 : kept airspeed (set_updated (updatedSensors (vars w)) s0) sB)
        by (subst sB; keep);
      assert (K2 : kept airspeed (result (SANITYCHECK1 sane o Ias a1 extra sB) w1) sC)
        by (subst sC; keep)
  end.
  clearbody sC sB.
  pose proof (gate1_between _ Ias _ _ _ _ _ w1 K1 K2 Hd) as G.
  cbv beta zeta in G. change (data (AirspeedSensorObj (store w1))) with s in G.
  fold admitted in G. rewrite !member1_Ias in G. cbn [UPDATED1 set_updated ias] in G.
  apply gate_outcome. exact G.
Qed.

(** What the position gate of the source does: with the position bit
    drained, the bit survives exactly when [position_test] holds, and the
    member then holds the converted sample. *)
Lemma position_gate s0 w :
  ISSET (drained (result (StateEstimationCb sane s0) w)) pos_UPDATED = true ->
  let sensors := snapshot (result (StateEstimationCb sane s0) w) in
  let p := data (GPSPositionObj (store w)) in
  let admitted := position_test sane (homeLocation (vars w)) p in
  ISSET (updated sensors) pos_UPDATED = admitted
  /\ pos sensors = if admitted then result (getNED p (pos s0)) w else pos s0.
Proof.
  intros Hd sensors p admitted. rewrite StateEstimationCb_drained in Hd.
  subst sensors.
  unfold result at 1 2. rewrite StateEstimationCb_run. cbn [fst snapshot].
  set (w1 := {| store := store w; vars := _; calls := _ |}).
  rewrite (getNED_world p (pos s0) w w1 eq_refl eq_refl).
  match goal with
  | |- context [POSITIONCHECK sane ?sB] =>
      generalize (position_between (set_updated (updatedSensors (vars w)) s0) sB w1
                    ltac:(keep) Hd)
  end.
  cbv zeta.
  change (position_test sane (homeLocation (vars w1)) (data (GPSPositionObj (store w1))))
    with admitted.
  change (data (GPSPositionObj (store w1))) with p.
  change (pos (set_updated (updatedSensors (vars w)) s0)) with (pos s0).
  apply gate_outcome.
Qed.

(** C7: the calls of one cycle are the alarm call followed by the
    rescheduling.  The alarm is raised, first thing and with warning
    severity, exactly when the dirty set is empty on entry; it is cleared
    at the end exactly when it was not raised. *)
Theorem alarm_raised_iff_dirty_set_empty s0 w :
  let tr := emitted (StateEstimationCb sane s0) w in
  let raise := AlarmsSet SYSTEMALARMS_ALARM_ATTITUDE SYSTEMALARMS_ALARM_WARNING in
  let clear := AlarmsClear SYSTEMALARMS_ALARM_ATTITUDE in
  calls (after (StateEstimationCb sane s0) w) = calls w ++ tr
  /\ tr = [if updatedSensors (vars w) =? 0 then raise else clear;
           DelayedCallbackSchedule (stateEstimationCallback (vars w)) TIMEOUT_MS
             UPDATEMODE_SOONER]
  /\ (head tr = Some raise <-> updatedSensors (vars w) = 0)
  /\ (In raise tr <-> updatedSensors (vars w) = 0)
  /\ (In clear tr <-> ~ In raise tr).
Proof.
  intros tr raise clear. subst tr. rewrite StateEstimationCb_emitted.
  split; [|split; [|split; [|split]]].
  - unfold after. rewrite StateEstimationCb_run. reflexivity.
  - destruct (updatedSensors (vars w) =? 0); reflexivity.
  - destruct (Z.eqb_spec (updatedSensors (vars w)) 0) as [E|E]; simpl;
      split; intros H; try assumption; try reflexivity; try discriminate H; contradiction.
  - destruct (Z.eqb_spec (updatedSensors (vars w)) 0) as [E|E]; simpl; split; intros H.
    + assumption.
    + left. reflexivity.
    + destruct H as [H|[H|[]]]; discriminate H.
    + contradiction.
  - destruct (Z.eqb_spec (updatedSensors (vars w)) 0) as [E|E]; simpl; split; intros H.
    + destruct H as [H|[H|[]]]; discriminate H.
    + exfalso. apply H. left. reflexivity.
    + intros [H'|[H'|[]]]; discriminate H'.
    + left. reflexivity.
Qed.

(** ** Single-precision arithmetic *)

Lemma fmul_comm (a b : float) : (a * b = b * a)%f32.
Proof.
  unfold fmul, SFmul.
  destruct a as [sa|sa| |sa ma ea], b as [sb|sb| |sb mb eb];
    rewrite ?(xorb_comm sa sb), ?(Pos.mul_comm ma mb), ?(Z.add_comm ea eb); reflexivity.
Qed.

Lemma fadd_comm (a b : float) : (a + b = b + a)%f32.
Proof.
  unfold fadd, SFadd.
  destruct a as [sa|sa| |sa ma ea], b as [sb|sb| |sb mb eb]; try reflexivity.
  - destruct sa, sb; reflexivity.
  - destruct sa, sb; reflexivity.
  - cbv zeta. rewrite (Z.min_comm eb ea). f_equal. apply Z.add_comm.
Qed.

Lemma feq_zero (x : float) : (x == fzero)%f32 = is_zero x.
Proof. destruct x as [s|s| |s m e]; try reflexivity; destruct s; reflexivity. Qed.

Lemma fsub_diag (x : float) : is_finite x = true -> (x - x)%f32 = fzero.
Proof.
  destruct x as [s|s| |s m e]; try discriminate; intros _.
  - destruct s; reflexivity.
  - unfold fsub, SFsub. cbv zeta. rewrite Z.sub_diag. reflexivity.
Qed.

Lemma fmul_zero_r (m z : float) :
  is_finite m = true -> is_zero z = true -> is_zero (m * z)%f32 = true.
Proof.
  destruct z as [sz|sz| |sz mz ez]; try discriminate.
  destruct m as [s|s| |s mm e]; try discriminate; reflexivity.
Qed.

Lemma to_radians_zero (z : float) : is_zero z = true -> is_zero (to_radians z) = true.
Proof.
  destruct z as [s|s| |s m e]; try discriminate. intros _. destruct s; reflexivity.
Qed.

Lemma fadd_zero_fsub (a g : float) :
  is_finite a = true -> is_zero g = true -> is_zero (a + g - a)%f32 = true.
Proof.
  destruct g as [sg|sg| |sg mg eg]; try discriminate.
  destruct a as [s|s| |s m e]; try discriminate; intros _ _.
  - destruct s, sg; reflexivity.
  - change (S754_finite s m e + S754_zero sg)%f32 with (S754_finite s m e).
    rewrite fsub_diag by reflexivity. reflexivity.
Qed.

(** Two floats that compare equal, one of them finite, are two zeros or
    the same float. *)
Lemma feq_cases (a b : float) :
  is_finite b = true -> (a == b)%f32 = true ->
  (is_zero a = true /\ is_zero b = true) \/ a = b.
Proof.
  intros Hb H. unfold feq, SFeqb, SFcompare in H.
  destruct a as [sa|sa| |sa ma ea], b as [sb|sb| |sb mb eb];
    try discriminate; try (destruct sa; discriminate); try (destruct sb; discriminate).
  - left. split; reflexivity.
  - right.
    assert (E : ea = eb /\ Pos.compare_cont Eq ma mb = Eq /\ sa = sb).
    { destruct sa, sb; try discriminate;
        destruct (Z.compare_spec ea eb); try discriminate;
        destruct (Pos.compare_cont Eq ma mb); try discriminate; auto. }
    destruct E as (-> & Em & ->). f_equal. apply Pos.compare_eq. exact Em.
Qed.

Lemma fsub_feq (a b : float) :
  is_finite b = true -> (a == b)%f32 = true -> is_zero (a - b)%f32 = true.
Proof.
  intros Hb H. destruct (feq_cases a b Hb H) as [[Za Zb]|E].
  - destruct a as [sa|sa| |sa ma ea], b as [sb|sb| |sb mb eb]; try discriminate.
    destruct sa, sb; reflexivity.
  - subst a. rewrite fsub_diag by assumption. reflexivity.
Qed.

Lemma fadd_zero_fsub_feq (a b g : float) :
  is_finite b = true -> (a == b)%f32 = true -> is_zero g = true ->
  is_zero (a + g - b)%f32 = true.
Proof.
  intros Hb H Hg. destruct (feq_cases a b Hb H) as [[Za Zb]|E].
  - destruct a as [sa|sa| |sa ma ea], b as [sb|sb| |sb mb eb], g as [sg|sg| |sg mg eg];
      try discriminate.
    destruct sa, sb, sg; reflexivity.
  - subst a. apply fadd_zero_fsub; assumption.
Qed.

(** ** The home reference and its matrix *)

Lemma settingsUpdatedCb_run ev w :
  let home := data (HomeLocationObj (store w)) in
  let lat := DEG2RAD (HomeLocation_Latitude home / c_10_0e6f)%f32 in
  let alt := HomeLocation_Altitude home in
  settingsUpdatedCb sane cosf ev w
  = (tt, {| store := store w;
            vars := {| stateEstimationCallback := stateEstimationCallback (vars w);
                       revoSettings := data (RevoSettingsObj (store w));
                       homeLocation := home;
                       LLA2NEDM := if home_sane sane home
                                   then [# alt + c_6_378137E6f;
                                           cosf lat * (alt + c_6_378137E6f);
                                           c_m1_0f ]%f32
                                   else LLA2NEDM (vars w);
                       updatedSensors := updatedSensors (vars w) |};
            calls := calls w |}).
Proof.
  intros home lat alt. unfold settingsUpdatedCb. run_cmd.
  cbn [store vars calls homeLocation set_homeLocation].
  fold home. change (sane _ && _ && _ && _ && _ && _) with (home_sane sane home).
  destruct (home_sane sane home); cbv beta iota;
    cbn [store vars calls]; unfold set_revoSettings, set_LLA2NEDM, set_homeLocation;
    cbn [stateEstimationCallback revoSettings homeLocation LLA2NEDM updatedSensors].
  - fold lat alt. rewrite vinsert3. reflexivity.
  - reflexivity.
Qed.

Lemma home_sane_false home :
  sane (HomeLocation_Latitude home) = false \/ sane (HomeLocation_Longitude home) = false
  \/ sane (HomeLocation_Altitude home) = false
  \/ sane (HomeLocation_Be home !!! 0%fin) = false
  \/ sane (HomeLocation_Be home !!! 1%fin) = false
  \/ sane (HomeLocation_Be home !!! 2%fin) = false ->
  home_sane sane home = false.
Proof.
  unfold home_sane.
  intros [H|[H|[H|[H|[H|H]]]]]; rewrite H;
    rewrite ?andb_false_r, ?andb_false_l; reflexivity.
Qed.

(** C8: when the home reference that arrives has a latitude, longitude,
    altitude or magnetic field component that fails the sanity check, the
    settings handler leaves the three components of [LLA2NEDM] as they
    were; so the matrix changes only when all six are sane. *)
Theorem insane_home_keeps_matrix ev w :
  let home := data (HomeLocationObj (store w)) in
  sane (HomeLocation_Latitude home) = false \/ sane (HomeLocation_Longitude home) = false
  \/ sane (HomeLocation_Altitude home) = false
  \/ sane (HomeLocation_Be home !!! 0%fin) = false
  \/ sane (HomeLocation_Be home !!! 1%fin) = false
  \/ sane (HomeLocation_Be home !!! 2%fin) = false ->
  LLA2NEDM (vars (after (settingsUpdatedCb sane cosf ev) w)) = LLA2NEDM (vars w).
Proof.
  intros home H. unfold after. rewrite settingsUpdatedCb_run. cbn [snd vars LLA2NEDM].
  fold home. rewrite (home_sane_false home H). reflexivity.
Qed.

Lemma sane_home_recomputes_matrix ev w :
  let home := data (HomeLocationObj (store w)) in
  home_sane sane home = true ->
  LLA2NEDM (vars (after (settingsUpdatedCb sane cosf ev) w)) = LinearizationMatrix cosf home
  /\ homeLocation (vars (after (settingsUpdatedCb sane cosf ev) w)) = home.
Proof.
  intros home H. unfold after. rewrite settingsUpdatedCb_run.
  cbn [snd vars LLA2NEDM homeLocation]. fold home. rewrite H. split; [|reflexivity].
  unfold LinearizationMatrix, to_radians.
  rewrite (fadd_comm c_6_378137E6f), (fmul_comm (cosf _)). reflexivity.
Qed.

(** C6: once the settings handler has seen a sane home reference,
    [getNED] returns the elementwise product of [dLat, dLon, dAlt] with
    the matrix [R_n, R_n cos(lat_home), -1], R_n being 6.378137e6 plus the
    home altitude; dLat and dLon are the differences to the home
    reference in radians and dAlt is the altitude plus the geoid
    separation minus the home altitude. *)
Theorem getNED_is_linearized_product ev w p NED :
  let home := data (HomeLocationObj (store w)) in
  home_sane sane home = true ->
  let w' := after (settingsUpdatedCb sane cosf ev) w in
  LLA2NEDM (vars w') = LinearizationMatrix cosf home
  /\ result (getNED p NED) w' = toNED p home (LinearizationMatrix cosf home).
Proof.
  intros home H w'.
  destruct (sane_home_recomputes_matrix ev w H) as [Hm Hh]. fold home w' in Hm, Hh.
  split; [exact Hm|].
  rewrite getNED_result, Hm, Hh. unfold toNED, LinearizationMatrix.
  cbn [vzip_with Vector.map2 Vector.caseS' Vector.hd Vector.tl].
  simpl. rewrite !(fmul_comm (to_radians _)), (fmul_comm (_ - _)%f32). reflexivity.
Qed.

(** C3, amended: for a home reference whose latitude, longitude and
    altitude are finite and a matrix whose components are finite, a
    position whose latitude, longitude and altitude equal those of the
    home reference and whose geoid separation is zero is converted to a
    vector whose three components compare equal to [0.0f].  Equality is
    the one of C: [==] on [float]. *)
Theorem home_position_maps_to_origin w p NED :
  let home := homeLocation (vars w) in
  is_finite (HomeLocation_Latitude home) = true ->
  is_finite (HomeLocation_Longitude home) = true ->
  is_finite (HomeLocation_Altitude home) = true ->
  (forall i, is_finite (LLA2NEDM (vars w) !!! i) = true) ->
  (GPSPosition_Latitude p == HomeLocation_Latitude home)%f32 = true ->
  (GPSPosition_Longitude p == HomeLocation_Longitude home)%f32 = true ->
  (GPSPosition_Altitude p == HomeLocation_Altitude home)%f32 = true ->
  (GPSPosition_GeoidSeparation p == fzero)%f32 = true ->
  forall i, (result (getNED p NED) w !!! i == fzero)%f32 = true.
Proof.
  intros home Hlat Hlon Halt Hm Elat Elon Ealt Hg i.
  rewrite feq_zero in Hg. rewrite feq_zero, getNED_result, vlookup_zip_with.
  fold home. apply fmul_zero_r; [apply Hm|].
  inv_fin i; [|intros i; inv_fin i; [|intros i; inv_fin i; [|intros i; inv_fin i]]].
  - apply to_radians_zero, fsub_feq; assumption.
  - apply to_radians_zero, fsub_feq; assumption.
  - apply fadd_zero_fsub_feq; assumption.
Qed.

(** ** Notifications *)

Lemma when_or_updatedSensors (c : bool) bit w :
  when c (or_updatedSensors bit) w
  = (tt, {| store := store w;
            vars := set_updatedSensors
                      (Z.lor (updatedSensors (vars w)) (if c then bit else 0)) (vars w);
            calls := calls w |}).
Proof.
  destruct c; run_cmd.
  - reflexivity.
  - rewrite Z.lor_0_r. destruct w as [o [cb r h m u] l]. reflexivity.
Qed.

Lemma after_when_or_updatedSensors (c : bool) bit w :
  after (when c (or_updatedSensors bit)) w
  = {| store := store w;
       vars := set_updatedSensors
                 (Z.lor (updatedSensors (vars w)) (if c then bit else 0)) (vars w);
       calls := calls w |}.
Proof. unfold after. rewrite when_or_updatedSensors. reflexivity. Qed.

Lemma sensorUpdatedCb_run ev w :
  sensorUpdatedCb (Some ev) w
  = (tt, {| store := store w;
            vars := set_updatedSensors
                      (Z.lor (updatedSensors (vars w)) (matching_bits ev (store w))) (vars w);
            calls := calls w ++ [DelayedCallbackDispatch (stateEstimationCallback (vars w))] |}).
Proof.
  rewrite (run_pair (sensorUpdatedCb (Some ev)) w). f_equal.
  - destruct (result _ _). reflexivity.
  - unfold sensorUpdatedCb.
    repeat (rewrite after_bind; cbv beta;
            first [ rewrite after_when_or_updatedSensors
                  | change (after (Handle ?o) ?w') with w'
                  | change (after (read ?f) ?w') with w' ];
            repeat match goal with
                   | |- context [result (Handle ?o) ?w'] =>
                       change (result (Handle o) w') with (handle (o (store w')))
                   | |- context [result (read ?f) ?w'] =>
                       change (result (read f) w') with (f (vars w'))
                   end;
            unfold set_updatedSensors;
            cbn [store vars calls updatedSensors stateEstimationCallback revoSettings
                 homeLocation LLA2NEDM]).
    unfold extern, after. cbn [snd store vars calls].
    rewrite <- !Z.lor_assoc. unfold matching_bits, channels.
    cbn [fold_right channel_handle channel_bit].
    repeat match goal with
           | |- context [obj ev =? ?h] => destruct (obj ev =? h)
           end;
      rewrite ?Z.lor_0_r, ?Z.lor_0_l; reflexivity.
Qed.

Lemma matching_bits_testbit ev o k :
  Z.testbit (matching_bits ev o) k
  = existsb (fun c => (channel_index c =? k) && (obj ev =? channel_handle c o)) channels.
Proof.
  unfold matching_bits. induction channels as [|c l IH]; cbn [fold_right existsb].
  - apply Z.bits_0.
  - destruct (obj ev =? channel_handle c o).
    + rewrite Z.lor_comm, lor_channel, IH, andb_true_r. apply orb_comm.
    + rewrite IH, andb_false_r. reflexivity.
Qed.

Lemma matching_bits_channel ev o c :
  Z.testbit (matching_bits ev o) (channel_index c) = (obj ev =? channel_handle c o).
Proof.
  rewrite matching_bits_testbit. unfold channels. cbn [existsb].
  destruct c; cbn [channel_index Z.eqb Pos.eqb andb orb];
    rewrite ?orb_false_r; reflexivity.
Qed.

Lemma land_lor_absorb u m : Z.land u (Z.lor u m) = u.
Proof.
  apply Z.bits_inj'. intros n _. rewrite Z.land_spec, Z.lor_spec.
  destruct (Z.testbit u n); reflexivity.
Qed.

(** C10: a notification with a null event changes nothing at all: no
    variable, no call.  For any other event the dirty set becomes its old
    value ORed with the bits of exactly those channels whose object
    handle is the one of the event, so that no bit is cleared; the
    estimation callback is dispatched once, and nothing else changes. *)
Theorem sensorUpdatedCb_effect :
  (forall w, sensorUpdatedCb None w = (tt, w))
  /\ (forall ev w,
        let w' := after (sensorUpdatedCb (Some ev)) w in
        let u := updatedSensors (vars w) in
        let u' := updatedSensors (vars w') in
        u' = Z.lor u (matching_bits ev (store w))
        /\ (forall k, Z.testbit (matching_bits ev (store w)) k
                      = existsb (fun c => (channel_index c =? k)
                                          && (obj ev =? channel_handle c (store w)))
                          channels)
        /\ (forall c, Z.testbit u' (channel_index c)
                      = Z.testbit u (channel_index c)
                        || (obj ev =? channel_handle c (store w)))
        /\ Z.land u u' = u
        /\ emitted (sensorUpdatedCb (Some ev)) w
           = [DelayedCallbackDispatch (stateEstimationCallback (vars w))]
        /\ store w' = store w
        /\ vars w' = set_updatedSensors u' (vars w)).
Proof.
  split; [reflexivity|].
  intros ev w w' u u'. subst w' u'. unfold emitted, after.
  rewrite sensorUpdatedCb_run. cbn [snd vars store calls updatedSensors set_updatedSensors].
  fold u. split; [reflexivity|]. split; [apply matching_bits_testbit|].
  split; [|split; [|split; [|split]]].
  - intros c. rewrite Z.lor_spec, matching_bits_channel. reflexivity.
  - apply land_lor_absorb.
  - apply drop_app_length.
  - reflexivity.
  - reflexivity.
Qed.

Lemma sensorUpdatedCb_store ev w : store (after (sensorUpdatedCb ev) w) = store w.
Proof.
  destruct ev as [ev|]; [|reflexivity].
  unfold after. rewrite sensorUpdatedCb_run. reflexivity.
Qed.

Lemma sensorUpdatedCb_bit ev w c :
  Z.testbit (updatedSensors (vars (after (sensorUpdatedCb ev) w))) (channel_index c)
  = Z.testbit (updatedSensors (vars w)) (channel_index c) || notifies c (store w) ev.
Proof.
  destruct ev as [ev|]; cbn [notifies].
  - unfold after. rewrite sensorUpdatedCb_run.
    cbn [snd vars updatedSensors set_updatedSensors].
    rewrite Z.lor_spec, matching_bits_channel. reflexivity.
  - symmetry. apply orb_false_r.
Qed.

Lemma notify_run evs : forall w,
  store (after (notify evs) w) = store w
  /\ forall c, Z.testbit (updatedSensors (vars (after (notify evs) w))) (channel_index c)
               = Z.testbit (updatedSensors (vars w)) (channel_index c)
                 || existsb (notifies c (store w)) evs.
Proof.
  induction evs as [|ev evs IH]; intros w.
  - split; [reflexivity|]. intros c. symmetry. apply orb_false_r.
  - cbn [notify existsb]. rewrite after_bind.
    destruct (IH (after (sensorUpdatedCb ev) w)) as [IHs IHb].
    rewrite sensorUpdatedCb_store in IHs, IHb. split; [exact IHs|].
    intros c. rewrite IHb, sensorUpdatedCb_bit. symmetry. apply orb_assoc.
Qed.

(** C5, for calls that run one after the other, each returning before
    the next is entered: a notification for channel [c] followed by a
    cycle puts the bit of [c] in the mask that cycle drains, and the
    cycle leaves the dirty set empty; whatever notifications for other
    objects follow, the bit of [c] is absent from the mask the next cycle
    drains. *)
Theorem drained_exactly_once c ev evs s0 s0' w :
  obj ev = channel_handle c (store w) ->
  existsb (notifies c (store w)) evs = false ->
  let w1 := after (sensorUpdatedCb (Some ev)) w in
  let w2 := after (StateEstimationCb sane s0) w1 in
  let w3 := after (notify evs) w2 in
  ISSET (drained (result (StateEstimationCb sane s0) w1)) (channel_bit c) = true
  /\ updatedSensors (vars w2) = 0
  /\ ISSET (drained (result (StateEstimationCb sane s0') w3)) (channel_bit c) = false.
Proof.
  intros Hev Hevs w1 w2 w3.
  rewrite !StateEstimationCb_drained, !ISSET_channel.
  assert (Hs2 : store w2 = store w).
  { subst w2 w1. rewrite StateEstimationCb_store. apply (sensorUpdatedCb_store (Some ev)). }
  assert (Hu2 : updatedSensors (vars w2) = 0).
  { subst w2. rewrite StateEstimationCb_vars. reflexivity. }
  split; [|split].
  - subst w1. rewrite (sensorUpdatedCb_bit (Some ev)). cbn [notifies].
    rewrite Hev, Z.eqb_refl. apply orb_true_r.
  - exact Hu2.
  - subst w3. destruct (notify_run evs w2) as [_ Hb].
    rewrite Hb, Hu2, Hs2, Hevs, Z.bits_0. reflexivity.
Qed.


(** ** Activations that run without interruption *)

Lemma perform_all_cons a accs u l :
  perform_all (a :: accs) u l
  = perform_all accs (fst (perform a u l)) (snd (perform a u l)).
Proof.
  unfold perform_all. cbn [fold_left fst snd].
  destruct (perform a u l). reflexivity.
Qed.

Lemma perform_all_app accs accs' u l :
  perform_all (accs ++ accs') u l
  = perform_all accs' (fst (perform_all accs u l)) (snd (perform_all accs u l)).
Proof.
  unfold perform_all. rewrite fold_left_app.
  destruct (fold_left _ accs (u, l)). reflexivity.
Qed.

(** An activation that is scheduled for all of [accs] in a row makes
    them as one, whatever other activations are in flight. *)
Lemma interleave_uninterrupted accs : forall i m l rest,
  activations m !! i = Some {| frame := l; pending := accs ++ rest |} ->
  interleave (replicate (length accs) i) m
  = {| shared := fst (perform_all accs (shared m) l);
       activations := <[i := {| frame := snd (perform_all accs (shared m) l);
                                pending := rest |}]> (activations m) |}.
Proof.
  induction accs as [|a accs IH]; intros i m l rest Hi.
  - cbn. rewrite list_insert_id by exact Hi. destruct m. reflexivity.
  - cbn [length replicate]. unfold interleave. cbn [fold_left].
    fold (interleave (replicate (length accs) i) (step m i)).
    assert (Hs : step m i
                 = {| shared := fst (perform a (shared m) l);
                      activations := <[i := {| frame := snd (perform a (shared m) l);
                                               pending := accs ++ rest |}]>
                                       (activations m) |}).
    { unfold step. rewrite Hi. reflexivity. }
    rewrite Hs.
    rewrite (IH i _ (snd (perform a (shared m) l)) rest).
    + cbn [shared activations]. rewrite list_insert_insert_eq, perform_all_cons.
      reflexivity.
    + cbn [activations]. apply list_lookup_insert_eq. eapply lookup_lt_Some, Hi.
Qed.

(** The four accesses of a cycle, taken together, read the dirty set
    into [sensors.updated] and leave it empty. *)
Lemma StateEstimationCb_accesses_alone u l :
  perform_all StateEstimationCb_accesses u l
  = (0, {| alarm := u =? 0; sensors_updated := u; tmp := u |}).
Proof.
  unfold perform_all. cbn. rewrite Z.lxor_nilpotent. reflexivity.
Qed.

(** The accesses of a notification, taken together, or the matching bits
    into the dirty set and leave the locals of the cycle alone. *)
Lemma sensorUpdatedCb_accesses_alone ev o u l :
  let ul := perform_all (sensorUpdatedCb_accesses (Some ev) o) u l in
  fst ul = Z.lor u (matching_bits ev o)
  /\ alarm (snd ul) = alarm l
  /\ sensors_updated (snd ul) = sensors_updated l.
Proof.
  cbv zeta. unfold sensorUpdatedCb_accesses, matching_bits.
  revert u l. induction channels as [|c cs IH]; intros u l.
  - cbn. rewrite Z.lor_0_r. auto.
  - cbn [flat_map fold_right]. rewrite perform_all_app.
    destruct (obj ev =? channel_handle c o).
    + destruct (IH (Z.lor u (channel_bit c))
                  {| alarm := alarm l; sensors_updated := sensors_updated l; tmp := u |})
        as (H1 & H2 & H3).
      cbn [perform_all fold_left perform fst snd tmp alarm sensors_updated] in *.
      rewrite H1, H2, H3, Z.lor_assoc. auto.
    + cbn [perform_all fold_left fst snd]. apply IH.
Qed.

(** A cycle whose accesses are not interleaved with any other is the
    sequential [StateEstimationCb]: same dirty set afterwards, same
    drained mask, and the alarm flag set when the dirty set was empty. *)
Lemma uninterrupted_cycle s0 w i m l rest :
  shared m = updatedSensors (vars w) ->
  activations m !! i = Some {| frame := l; pending := StateEstimationCb_accesses ++ rest |} ->
  let m' := interleave (replicate (length StateEstimationCb_accesses) i) m in
  shared m' = updatedSensors (vars (after (StateEstimationCb sane s0) w))
  /\ drained_by i m' = drained (result (StateEstimationCb sane s0) w)
  /\ (exists l', activations m' !! i = Some {| frame := l'; pending := rest |}
                 /\ alarm l' = (updatedSensors (vars w) =? 0))
  /\ (forall j, j <> i -> activations m' !! j = activations m !! j).
Proof.
  intros Hu Hi m'. subst m'.
  rewrite (interleave_uninterrupted _ _ _ _ _ Hi), StateEstimationCb_accesses_alone.
  rewrite StateEstimationCb_vars, StateEstimationCb_drained.
  unfold drained_by. cbn [shared activations fst snd].
  pose proof (lookup_lt_Some _ _ _ Hi) as Hlt.
  rewrite list_lookup_insert_eq by exact Hlt. cbn [frame sensors_updated].
  split; [reflexivity|]. split; [exact Hu|]. split.
  - eexists. split; [reflexivity|]. cbn [alarm]. rewrite Hu. reflexivity.
  - intros j Hj. apply list_lookup_insert_ne. auto.
Qed.

(** A notification whose accesses are not interleaved with any other is
    the sequential [sensorUpdatedCb]. *)
Lemma uninterrupted_notification ev w i m l rest :
  shared m = updatedSensors (vars w) ->
  activations m !! i
  = Some {| frame := l; pending := sensorUpdatedCb_accesses ev (store w) ++ rest |} ->
  let m' := interleave (replicate (length (sensorUpdatedCb_accesses ev (store w))) i) m in
  shared m' = updatedSensors (vars (after (sensorUpdatedCb ev) w))
  /\ drained_by i m' = drained_by i m
  /\ (forall j, j <> i -> activations m' !! j = activations m !! j).
Proof.
  intros Hu Hi m'. subst m'.
  rewrite (interleave_uninterrupted _ _ _ _ _ Hi).
  unfold drained_by. cbn [shared activations].
  pose proof (lookup_lt_Some _ _ _ Hi) as Hlt.
  rewrite list_lookup_insert_eq by exact Hlt. rewrite Hi. cbn [frame].
  split; [|split].
  - destruct ev as [ev|].
    + destruct (sensorUpdatedCb_accesses_alone ev (store w) (shared m) l) as (H1 & _).
      rewrite H1. unfold after. rewrite sensorUpdatedCb_run.
      cbn [snd vars updatedSensors set_updatedSensors]. rewrite Hu. reflexivity.
    + cbn. exact Hu.
  - destruct ev as [ev|].
    + apply (sensorUpdatedCb_accesses_alone ev (store w) (shared m) l).
    + reflexivity.
  - intros j Hj. apply list_lookup_insert_ne. auto.
Qed.


(** * Further properties of the cycle *)

(** ** Every gate, drained or not *)

Lemma ISSET_zero_mask bit : ISSET 0 bit = false.
Proof. unfold ISSET. rewrite Z.land_0_l. reflexivity. Qed.

Lemma gate3_outcome {D} (o : objects -> uavobj D) n a1 a2 a3 sA sB sC w :
  let d := data (o (store w)) in
  let raw := [# a1 d; a2 d; a3 d] in
  kept (channel3 n) sA sB ->
  kept (channel3 n) (result (SANITYCHECK3 sane o n a1 a2 a3 sB) w) sC ->
  ISSET (updated sC) (UPDATED3 n) = ISSET (updated sA) (UPDATED3 n) && sane3 sane raw
  /\ member3 n sC
     = if ISSET (updated sA) (UPDATED3 n) && sane3 sane raw then raw else member3 n sA.
Proof.
  intros d raw KAB KC. destruct (ISSET (updated sA) (UPDATED3 n)) eqn:HA.
  - pose proof (gate3_between o n a1 a2 a3 sA sB sC w KAB KC HA) as G.
    cbv zeta in G. fold d raw in G. cbn [andb].
    destruct (sane3 sane raw); destruct G as [G1 G2]; split; assumption.
  - cbn [andb].
    pose proof (kept_ISSET _ _ _ KAB) as HB. rewrite <- UPDATED3_channel, HA in HB.
    rewrite SANITYCHECK3_skip in KC by exact HB.
    pose proof (kept_ISSET _ _ _ KC) as HC. rewrite <- UPDATED3_channel, HB in HC.
    destruct KC as (KC3 & _ & _). destruct KAB as (KAB3 & _ & _).
    split; [exact HC|]. rewrite (KC3 n eq_refl). apply (KAB3 n eq_refl).
Qed.

Lemma gate1_outcome {D} (o : objects -> uavobj D) n a1 extra sA sB sC w :
  let d := data (o (store w)) in
  kept (channel1 n) sA sB ->
  kept (channel1 n) (result (SANITYCHECK1 sane o n a1 extra sB) w) sC ->
  ISSET (updated sC) (UPDATED1 n) = ISSET (updated sA) (UPDATED1 n) && (sane (a1 d) && extra d)
  /\ member1 n sC
     = if ISSET (updated sA) (UPDATED1 n) && (sane (a1 d) && extra d)
       then [# a1 d] else member1 n sA.
Proof.
  intros d KAB KC. destruct (ISSET (updated sA) (UPDATED1 n)) eqn:HA.
  - pose proof (gate1_between o n a1 extra sA sB sC w KAB KC HA) as G.
    cbv zeta in G. fold d in G. cbn [andb].
    destruct (sane (a1 d) && extra d); destruct G as [G1 G2]; split; assumption.
  - cbn [andb].
    pose proof (kept_ISSET _ _ _ KAB) as HB. rewrite <- UPDATED1_channel, HA in HB.
    rewrite SANITYCHECK1_skip in KC by exact HB.
    pose proof (kept_ISSET _ _ _ KC) as HC. rewrite <- UPDATED1_channel, HB in HC.
    destruct KC as (_ & KC1 & _). destruct KAB as (_ & KAB1 & _).
    split; [exact HC|]. rewrite (KC1 n eq_refl). apply (KAB1 n eq_refl).
Qed.

Lemma position_outcome sA sB w :
  let p := data (GPSPositionObj (store w)) in
  let sC := result (POSITIONCHECK sane sB) w in
  let test := position_test sane (homeLocation (vars w)) p in
  kept position sA sB ->
  ISSET (updated sC) (UPDATED3 Pos) = ISSET (updated sA) (UPDATED3 Pos) && test
  /\ member3 Pos sC
     = if ISSET (updated sA) (UPDATED3 Pos) && test
       then result (getNED p (member3 Pos sA)) w else member3 Pos sA.
Proof.
  intros p sC test KAB. cbn [UPDATED3 member3].
  destruct (ISSET (updated sA) pos_UPDATED) eqn:HA.
  - pose proof (position_between sA sB w KAB HA) as G. cbv zeta in G.
    fold p test in G. cbn [andb]. subst sC.
    destruct test; destruct G as [G1 G2]; split; assumption.
  - cbn [andb]. subst sC.
    pose proof (kept_ISSET _ _ _ KAB) as HB.
    change (channel_bit position) with pos_UPDATED in HB. rewrite HA in HB.
    rewrite POSITIONCHECK_skip by exact HB. split; [exact HB|].
    destruct KAB as (KAB3 & _ & _). apply (KAB3 Pos eq_refl).
Qed.

(** ** Bits that belong to no channel *)

Lemma foreign_kept_refl s : foreign_kept s s.
Proof. intros n _. reflexivity. Qed.

Lemma foreign_kept_trans s1 s2 s3 :
  foreign_kept s1 s2 -> foreign_kept s2 s3 -> foreign_kept s1 s3.
Proof. intros H12 H23 n Hn. rewrite (H23 n Hn). apply (H12 n Hn). Qed.

Lemma foreign_kept_UNSET c s :
  foreign_kept s (set_updated (UNSET (updated s) (channel_bit c)) s).
Proof.
  intros n Hn. cbn [updated set_updated].
  destruct (Z.ltb_spec n 0) as [Hneg|Hpos].
  - rewrite !Z.testbit_neg_r by assumption. reflexivity.
  - rewrite UNSET_channel by assumption.
    destruct (Z.eqb_spec (channel_index c) n) as [E|_]; [destruct (Hn c E)|].
    apply andb_true_r.
Qed.

Lemma foreign_kept_SANITYCHECK3 {D} (o : objects -> uavobj D) n a1 a2 a3 s w :
  foreign_kept s (result (SANITYCHECK3 sane o n a1 a2 a3 s) w).
Proof.
  destruct (ISSET (updated s) (UPDATED3 n)) eqn:H.
  - destruct (sane3 sane [# a1 (data (o (store w))); a2 (data (o (store w)));
                            a3 (data (o (store w)))]) eqn:Hs.
    + rewrite SANITYCHECK3_admit by assumption. intros k _. destruct n; reflexivity.
    + rewrite SANITYCHECK3_reject by assumption.
      rewrite UPDATED3_channel. apply foreign_kept_UNSET.
  - rewrite SANITYCHECK3_skip by assumption. apply foreign_kept_refl.
Qed.

Lemma foreign_kept_SANITYCHECK1 {D} (o : objects -> uavobj D) n a1 extra s w :
  foreign_kept s (result (SANITYCHECK1 sane o n a1 extra s) w).
Proof.
  destruct (ISSET (updated s) (UPDATED1 n)) eqn:H.
  - destruct (sane (a1 (data (o (store w)))) && extra (data (o (store w)))) eqn:Hs.
    + rewrite SANITYCHECK1_admit by assumption. intros k _. destruct n; reflexivity.
    + rewrite SANITYCHECK1_reject by assumption.
      rewrite UPDATED1_channel. apply foreign_kept_UNSET.
  - rewrite SANITYCHECK1_skip by assumption. apply foreign_kept_refl.
Qed.

Lemma foreign_kept_POSITIONCHECK s w :
  foreign_kept s (result (POSITIONCHECK sane s) w).
Proof.
  destruct (ISSET (updated s) pos_UPDATED) eqn:H.
  - destruct (position_test sane (homeLocation (vars w)) (data (GPSPositionObj (store w))))
      eqn:Ht.
    + rewrite POSITIONCHECK_admit by assumption. intros k _. reflexivity.
    + rewrite POSITIONCHECK_reject by assumption. apply (foreign_kept_UNSET position).
  - rewrite POSITIONCHECK_skip by assumption. apply foreign_kept_refl.
Qed.

(** Chains the three lemmas above through the seven gates. *)
Ltac keep_foreign :=
  repeat first
    [ eapply foreign_kept_trans;
      [ | first [ apply foreign_kept_SANITYCHECK3 | apply foreign_kept_SANITYCHECK1
                | apply foreign_kept_POSITIONCHECK ] ]
    | apply foreign_kept_refl ].

Lemma gate3_mask {D} (o : objects -> uavobj D) n a1 a2 a3 sA sB sC w :
  kept (channel3 n) sA sB ->
  kept (channel3 n) (result (SANITYCHECK3 sane o n a1 a2 a3 sB) w) sC ->
  ISSET (updated sC) (UPDATED3 n)
  = ISSET (updated sA) (UPDATED3 n)
    && sane3 sane [# a1 (data (o (store w))); a2 (data (o (store w)));
                     a3 (data (o (store w)))].
Proof. intros KAB KC. exact (proj1 (gate3_outcome o n a1 a2 a3 sA sB sC w KAB KC)). Qed.

Lemma gate3_member {D} (o : objects -> uavobj D) n a1 a2 a3 sA sB sC w :
  kept (channel3 n) sA sB ->
  kept (channel3 n) (result (SANITYCHECK3 sane o n a1 a2 a3 sB) w) sC ->
  member3 n sC
  = if ISSET (updated sA) (UPDATED3 n)
       && sane3 sane [# a1 (data (o (store w))); a2 (data (o (store w)));
                        a3 (data (o (store w)))]
    then [# a1 (data (o (store w))); a2 (data (o (store w))); a3 (data (o (store w)))]
    else member3 n sA.
Proof. intros KAB KC. exact (proj2 (gate3_outcome o n a1 a2 a3 sA sB sC w KAB KC)). Qed.

Lemma gate1_mask {D} (o : objects -> uavobj D) n a1 extra sA sB sC w :
  kept (channel1 n) sA sB ->
  kept (channel1 n) (result (SANITYCHECK1 sane o n a1 extra sB) w) sC ->
  ISSET (updated sC) (UPDATED1 n)
  = ISSET (updated sA) (UPDATED1 n)
    && (sane (a1 (data (o (store w)))) && extra (data (o (store w)))).
Proof. intros KAB KC. exact (proj1 (gate1_outcome o n a1 extra sA sB sC w KAB KC)). Qed.

Lemma gate1_member {D} (o : objects -> uavobj D) n a1 extra sA sB sC w :
  kept (channel1 n) sA sB ->
  kept (channel1 n) (result (SANITYCHECK1 sane o n a1 extra sB) w) sC ->
  member1 n sC
  = if ISSET (updated sA) (UPDATED1 n)
       && (sane (a1 (data (o (store w)))) && extra (data (o (store w))))
    then [# a1 (data (o (store w)))] else member1 n sA.
Proof. intros KAB KC. exact (proj2 (gate1_outcome o n a1 extra sA sB sC w KAB KC)). Qed.

Lemma position_mask sA sB w :
  kept position sA sB ->
  ISSET (updated (result (POSITIONCHECK sane sB) w)) (UPDATED3 Pos)
  = ISSET (updated sA) (UPDATED3 Pos)
    && position_test sane (homeLocation (vars w)) (data (GPSPositionObj (store w))).
Proof. intros KAB. exact (proj1 (position_outcome sA sB w KAB)). Qed.

Lemma position_member sA sB w :
  kept position sA sB ->
  member3 Pos (result (POSITIONCHECK sane sB) w)
  = if ISSET (updated sA) (UPDATED3 Pos)
       && position_test sane (homeLocation (vars w)) (data (GPSPositionObj (store w)))
    then result (getNED (data (GPSPositionObj (store w))) (member3 Pos sA)) w
    else member3 Pos sA.
Proof. intros KAB. exact (proj2 (position_outcome sA sB w KAB)). Qed.

(** X1: a channel is marked updated in the snapshot of a cycle exactly
    when its bit was in the drained mask and its sample passed the gate
    of the channel; the bits of the mask that belong to no channel come
    out as they were drained. *)
Theorem snapshot_mask_characterized s0 w :
  (forall c,
     ISSET (updated (snapshot (result (StateEstimationCb sane s0) w))) (channel_bit c)
     = ISSET (drained (result (StateEstimationCb sane s0) w)) (channel_bit c)
       && gate_passes sane c w)
  /\ (forall n, (forall c, channel_index c <> n) ->
        Z.testbit (updated (snapshot (result (StateEstimationCb sane s0) w))) n
        = Z.testbit (drained (result (StateEstimationCb sane s0) w)) n).
Proof.
  unfold result. rewrite StateEstimationCb_run. cbn [fst snapshot drained].
  set (w1 := {| store := store w; vars := _; calls := _ |}).
  set (sA := set_updated (updatedSensors (vars w)) s0).
  change (updatedSensors (vars w)) with (updated sA).
  split.
  - intros c. destruct c.
    + eapply (gate3_mask _ Gyr _ _ _ sA _ _ w1); [ | keep ]; keep.
    + eapply (gate3_mask _ Acc _ _ _ sA _ _ w1); [ | keep ]; keep.
    + eapply (gate3_mask _ Mag _ _ _ sA _ _ w1); [ | keep ]; keep.
    + eapply (position_mask sA _ w1); keep.
    + eapply (gate3_mask _ Vel _ _ _ sA _ _ w1); [ | keep ]; keep.
    + rewrite <- (andb_true_r (gate_passes sane barometer w)).
      eapply (gate1_mask BaroSensorObj Bar BaroSensor_Altitude (fun _ => true)
                sA _ _ w1); [ | keep ]; keep.
    + eapply (gate1_mask AirspeedSensorObj Ias AirspeedSensor_CalibratedAirspeed
                (fun s => connected_eqb (AirspeedSensor_SensorConnected s)
                            AIRSPEEDSENSOR_SENSORCONNECTED_TRUE)
                sA _ _ w1); [ | keep ]; keep.
  - change (foreign_kept sA
              (result (POSITIONCHECK sane
                 (result (SANITYCHECK1 sane AirspeedSensorObj Ias
                    AirspeedSensor_CalibratedAirspeed
                    (fun s => connected_eqb (AirspeedSensor_SensorConnected s)
                                AIRSPEEDSENSOR_SENSORCONNECTED_TRUE)
                    (result (SANITYCHECK1 sane BaroSensorObj Bar BaroSensor_Altitude
                       (fun _ => true)
                       (result (SANITYCHECK3 sane GPSVelocityObj Vel GPSVelocity_North
                          GPSVelocity_East GPSVelocity_Down
                          (result (SANITYCHECK3 sane MagnetoSensorObj Mag MagnetoSensor_x
                             MagnetoSensor_y MagnetoSensor_z
                             (result (SANITYCHECK3 sane AccelSensorObj Acc AccelSensor_x
                                AccelSensor_y AccelSensor_z
                                (result (SANITYCHECK3 sane GyroSensorObj Gyr GyroSensor_x
                                   GyroSensor_y GyroSensor_z sA) w1)) w1)) w1)) w1)) w1))
                    w1)) w1)).
    keep_foreign.
Qed.

(** X2: every member of the snapshot holds the admitted sample when the
    bit of its channel was drained and the sample passed the gate, and
    otherwise what the stack held before the cycle: a rejected or absent
    sample leaves no trace in the snapshot. *)
Theorem snapshot_members_characterized s0 w :
  (forall n,
     member3 n (snapshot (result (StateEstimationCb sane s0) w))
     = if ISSET (drained (result (StateEstimationCb sane s0) w)) (UPDATED3 n)
          && gate_passes sane (channel3 n) w
       then admitted3 n s0 w else member3 n s0)
  /\ (forall n,
        member1 n (snapshot (result (StateEstimationCb sane s0) w))
        = if ISSET (drained (result (StateEstimationCb sane s0) w)) (UPDATED1 n)
             && gate_passes sane (channel1 n) w
          then admitted1 n w else member1 n s0).
Proof.
  unfold result. rewrite StateEstimationCb_run. cbn [fst snapshot drained].
  set (w1 := {| store := store w; vars := _; calls := _ |}).
  set (sA := set_updated (updatedSensors (vars w)) s0).
  change (updatedSensors (vars w)) with (updated sA).
  split; intros n; destruct n.
  - change (member3 Gyr s0) with (member3 Gyr sA).
    eapply (gate3_member _ Gyr _ _ _ sA _ _ w1); [ | keep ]; keep.
  - change (member3 Acc s0) with (member3 Acc sA).
    eapply (gate3_member _ Acc _ _ _ sA _ _ w1); [ | keep ]; keep.
  - change (member3 Mag s0) with (member3 Mag sA).
    eapply (gate3_member _ Mag _ _ _ sA _ _ w1); [ | keep ]; keep.
  - change (member3 Pos s0) with (member3 Pos sA).
    unfold admitted3.
    rewrite (getNED_world (data (GPSPositionObj (store w))) (pos s0) w w1 eq_refl eq_refl).
    change (pos s0) with (member3 Pos sA).
    eapply (position_member sA _ w1); keep.
  - change (member3 Vel s0) with (member3 Vel sA).
    eapply (gate3_member _ Vel _ _ _ sA _ _ w1); [ | keep ]; keep.
  - change (member1 Bar s0) with (member1 Bar sA).
    rewrite <- (andb_true_r (gate_passes sane (channel1 Bar) w)).
    eapply (gate1_member BaroSensorObj Bar BaroSensor_Altitude (fun _ => true)
              sA _ _ w1); [ | keep ]; keep.
  - change (member1 Ias s0) with (member1 Ias sA).
    eapply (gate1_member AirspeedSensorObj Ias AirspeedSensor_CalibratedAirspeed
              (fun s => connected_eqb (AirspeedSensor_SensorConnected s)
                          AIRSPEEDSENSOR_SENSORCONNECTED_TRUE)
              sA _ _ w1); [ | keep ]; keep.
Qed.

(** ** Cycles without sensor data *)

Lemma idle_cycle s0 w :
  updatedSensors (vars w) = 0 ->
  result (StateEstimationCb sane s0) w = {| drained := 0; snapshot := set_updated 0 s0 |}.
Proof.
  intros Hu. unfold result. rewrite StateEstimationCb_run. cbn [fst]. rewrite Hu.
  cbn [Z.eqb].
  set (w1 := {| store := store w; vars := _; calls := _ |}).
  rewrite (SANITYCHECK3_skip GyroSensorObj Gyr GyroSensor_x GyroSensor_y GyroSensor_z
             (set_updated 0 s0) w1)
    by apply ISSET_zero_mask.
  rewrite (SANITYCHECK3_skip AccelSensorObj Acc AccelSensor_x AccelSensor_y AccelSensor_z
             (set_updated 0 s0) w1)
    by apply ISSET_zero_mask.
  rewrite (SANITYCHECK3_skip MagnetoSensorObj Mag MagnetoSensor_x MagnetoSensor_y
             MagnetoSensor_z (set_updated 0 s0) w1)
    by apply ISSET_zero_mask.
  rewrite (SANITYCHECK3_skip GPSVelocityObj Vel GPSVelocity_North GPSVelocity_East
             GPSVelocity_Down (set_updated 0 s0) w1)
    by apply ISSET_zero_mask.
  rewrite (SANITYCHECK1_skip BaroSensorObj Bar BaroSensor_Altitude (fun _ => true)
             (set_updated 0 s0) w1)
    by apply ISSET_zero_mask.
  rewrite (SANITYCHECK1_skip AirspeedSensorObj Ias AirspeedSensor_CalibratedAirspeed
             (fun s => connected_eqb (AirspeedSensor_SensorConnected s)
                         AIRSPEEDSENSOR_SENSORCONNECTED_TRUE)
             (set_updated 0 s0) w1)
    by apply ISSET_zero_mask.
  rewrite (POSITIONCHECK_skip (set_updated 0 s0) w1) by apply ISSET_zero_mask.
  reflexivity.
Qed.

Lemma settingsUpdatedCb_keeps ev w :
  updatedSensors (vars (after (settingsUpdatedCb sane cosf ev) w)) = updatedSensors (vars w)
  /\ stateEstimationCallback (vars (after (settingsUpdatedCb sane cosf ev) w))
     = stateEstimationCallback (vars w)
  /\ store (after (settingsUpdatedCb sane cosf ev) w) = store w
  /\ calls (after (settingsUpdatedCb sane cosf ev) w) = calls w.
Proof. unfold after. rewrite settingsUpdatedCb_run. repeat split. Qed.

(** X3: the cycle that follows another one with no sensor notification
    in between, even across a settings update, finds nothing to drain:
    it raises the attitude alarm, reschedules, reads no sample and leaves
    every member of its snapshot as the stack held it. *)
Theorem second_cycle_is_idle ev s0 s0' w :
  result (StateEstimationCb sane s0')
    (after (settingsUpdatedCb sane cosf ev) (after (StateEstimationCb sane s0) w))
  = {| drained := 0; snapshot := set_updated 0 s0' |}
  /\ emitted (StateEstimationCb sane s0')
       (after (settingsUpdatedCb sane cosf ev) (after (StateEstimationCb sane s0) w))
     = [AlarmsSet SYSTEMALARMS_ALARM_ATTITUDE SYSTEMALARMS_ALARM_WARNING;
        DelayedCallbackSchedule (stateEstimationCallback (vars w)) TIMEOUT_MS
          UPDATEMODE_SOONER].
Proof.
  set (w1 := after (StateEstimationCb sane s0) w).
  destruct (settingsUpdatedCb_keeps ev w1) as (Hu & Hcb & _ & _).
  assert (Hu1 : updatedSensors (vars w1) = 0).
  { subst w1. rewrite StateEstimationCb_vars. reflexivity. }
  assert (Hcb1 : stateEstimationCallback (vars w1) = stateEstimationCallback (vars w)).
  { subst w1. rewrite StateEstimationCb_vars. reflexivity. }
  rewrite Hu1 in Hu. rewrite Hcb1 in Hcb. split.
  - apply idle_cycle. exact Hu.
  - rewrite StateEstimationCb_emitted, Hu, Hcb. reflexivity.
Qed.

(** X10: a cycle changes nothing of the module but the dirty set, which
    it leaves empty: the object store, the home reference, the matrix,
    the settings and the callback pointer are as before, so a position
    converts to the same vector after the cycle as before it. *)
Theorem cycle_frame s0 w :
  vars (after (StateEstimationCb sane s0) w) = set_updatedSensors 0 (vars w)
  /\ store (after (StateEstimationCb sane s0) w) = store w
  /\ (forall p NED,
        result (getNED p NED) (after (StateEstimationCb sane s0) w)
        = result (getNED p NED) w).
Proof.
  split; [apply StateEstimationCb_vars|]. split; [apply StateEstimationCb_store|].
  intros p NED. apply getNED_world; rewrite StateEstimationCb_vars; reflexivity.
Qed.

(** ** Runs of notifications *)

Lemma sensorUpdatedCb_calls ev w :
  calls (after (sensorUpdatedCb ev) w)
  = calls w ++ (if is_notification ev
                then [DelayedCallbackDispatch (stateEstimationCallback (vars w))] else [])
  /\ stateEstimationCallback (vars (after (sensorUpdatedCb ev) w))
     = stateEstimationCallback (vars w)
  /\ homeLocation (vars (after (sensorUpdatedCb ev) w)) = homeLocation (vars w)
  /\ LLA2NEDM (vars (after (sensorUpdatedCb ev) w)) = LLA2NEDM (vars w).
Proof.
  destruct ev as [ev|]; cbn [is_notification].
  - unfold after. rewrite sensorUpdatedCb_run. repeat split.
  - rewrite app_nil_r. repeat split.
Qed.

Lemma notify_calls evs : forall w,
  calls (after (notify evs) w)
  = calls w ++ repeat (DelayedCallbackDispatch (stateEstimationCallback (vars w)))
                      (length (List.filter is_notification evs))
  /\ stateEstimationCallback (vars (after (notify evs) w)) = stateEstimationCallback (vars w)
  /\ homeLocation (vars (after (notify evs) w)) = homeLocation (vars w)
  /\ LLA2NEDM (vars (after (notify evs) w)) = LLA2NEDM (vars w).
Proof.
  induction evs as [|ev evs IH]; intros w.
  - cbn [List.filter length repeat]. rewrite app_nil_r. repeat split.
  - cbn [notify List.filter]. rewrite after_bind.
    destruct (IH (after (sensorUpdatedCb ev) w)) as (IHc & IHcb & IHh & IHm).
    destruct (sensorUpdatedCb_calls ev w) as (Hc & Hcb & Hh & Hm).
    rewrite IHc, IHcb, IHh, IHm, Hc, Hcb, Hh, Hm.
    split; [|repeat split].
    destruct (is_notification ev); cbn [length repeat].
    + rewrite <- app_assoc. reflexivity.
    + rewrite app_nil_r. reflexivity.
Qed.

(** X4: after any run of notifications the bit of a channel is set
    exactly when it was set before or one of the events named the object
    of the channel, so that repeated notifications collapse into one bit
    and none is lost; each event that is not null dispatches the
    estimation callback once, and the home reference and the matrix are
    untouched. *)
Theorem notifications_accumulate evs w :
  (forall c,
     ISSET (updatedSensors (vars (after (notify evs) w))) (channel_bit c)
     = ISSET (updatedSensors (vars w)) (channel_bit c)
       || existsb (notifies c (store w)) evs)
  /\ emitted (notify evs) w
     = repeat (DelayedCallbackDispatch (stateEstimationCallback (vars w)))
              (length (List.filter is_notification evs))
  /\ store (after (notify evs) w) = store w
  /\ homeLocation (vars (after (notify evs) w)) = homeLocation (vars w)
  /\ LLA2NEDM (vars (after (notify evs) w)) = LLA2NEDM (vars w).
Proof.
  destruct (notify_run evs w) as [Hs Hb].
  destruct (notify_calls evs w) as (Hc & _ & Hh & Hm).
  split; [|split; [|split; [|split]]].
  - intros c. rewrite !ISSET_channel. apply Hb.
  - unfold emitted. rewrite Hc. apply drop_app_length.
  - exact Hs.
  - exact Hh.
  - exact Hm.
Qed.

Lemma matching_bits_zero ev o :
  (matching_bits ev o =? 0)
  = negb (existsb (fun c => obj ev =? channel_handle c o) channels).
Proof.
  unfold matching_bits, channels. cbn [fold_right existsb channel_handle channel_bit].
  repeat match goal with
         | |- context [obj ev =? ?h] => destruct (obj ev =? h)
         end; reflexivity.
Qed.

(** X5: with the dirty set empty, a notification followed by a cycle
    clears the alarm when the event names the object of one of the seven
    channels, and raises it when it names none of them: the dispatched
    cycle then finds the dirty set as empty as a timeout would. *)
Theorem notified_cycle_alarm ev s0 w :
  updatedSensors (vars w) = 0 ->
  emitted (StateEstimationCb sane s0) (after (sensorUpdatedCb (Some ev)) w)
  = [if existsb (fun c => obj ev =? channel_handle c (store w)) channels
     then AlarmsClear SYSTEMALARMS_ALARM_ATTITUDE
     else AlarmsSet SYSTEMALARMS_ALARM_ATTITUDE SYSTEMALARMS_ALARM_WARNING;
     DelayedCallbackSchedule (stateEstimationCallback (vars w)) TIMEOUT_MS
       UPDATEMODE_SOONER].
Proof.
  intros Hu. rewrite StateEstimationCb_emitted. unfold after.
  rewrite sensorUpdatedCb_run.
  cbn [snd vars updatedSensors set_updatedSensors stateEstimationCallback].
  rewrite Hu, Z.lor_0_l, matching_bits_zero.
  destruct (existsb _ channels); reflexivity.
Qed.

(** ** Settings updates *)

(** X6: a settings update makes no call and leaves the store, the dirty
    set and the callback pointer alone; it takes the home reference and
    the settings over from the store whatever the event and whether or
    not the home reference is sane; and running it again changes nothing
    more. *)
Theorem settingsUpdatedCb_idempotent ev ev' w :
  after (settingsUpdatedCb sane cosf ev')
    (after (settingsUpdatedCb sane cosf ev) w)
  = after (settingsUpdatedCb sane cosf ev) w
  /\ store (after (settingsUpdatedCb sane cosf ev) w) = store w
  /\ calls (after (settingsUpdatedCb sane cosf ev) w) = calls w
  /\ updatedSensors (vars (after (settingsUpdatedCb sane cosf ev) w))
     = updatedSensors (vars w)
  /\ stateEstimationCallback (vars (after (settingsUpdatedCb sane cosf ev) w))
     = stateEstimationCallback (vars w)
  /\ homeLocation (vars (after (settingsUpdatedCb sane cosf ev) w))
     = data (HomeLocationObj (store w))
  /\ revoSettings (vars (after (settingsUpdatedCb sane cosf ev) w))
     = data (RevoSettingsObj (store w)).
Proof.
  unfold after. rewrite !settingsUpdatedCb_run.
  cbn [snd store vars calls stateEstimationCallback revoSettings homeLocation LLA2NEDM
       updatedSensors].
  split; [|repeat split].
  destruct (home_sane sane (data (HomeLocationObj (store w)))); reflexivity.
Qed.

(** ** The dirty-bit macros *)

(** X9: for any mask [bit], also one of several bits or none: after
    [UNSET] the test [ISSET] fails, a second [UNSET] changes nothing,
    ORing the mask in makes [ISSET] succeed unless the mask is empty, and
    [UNSET] undoes the OR up to the bits that were set before. *)
Theorem dirty_bit_round_trip u bit :
  ISSET (UNSET u bit) bit = false
  /\ UNSET (UNSET u bit) bit = UNSET u bit
  /\ ISSET (Z.lor u bit) bit = negb (bit =? 0)
  /\ UNSET (Z.lor u bit) bit = UNSET u bit.
Proof.
  unfold ISSET, UNSET. split; [|split; [|split]].
  - replace (Z.land (Z.land u (Z.lnot bit)) bit) with 0; [reflexivity|].
    symmetry. apply Z.bits_inj'. intros n Hn.
    rewrite !Z.land_spec, Z.lnot_spec, Z.bits_0 by assumption.
    destruct (Z.testbit u n), (Z.testbit bit n); reflexivity.
  - apply Z.bits_inj'. intros n Hn.
    rewrite !Z.land_spec, Z.lnot_spec by assumption.
    destruct (Z.testbit u n), (Z.testbit bit n); reflexivity.
  - replace (Z.land (Z.lor u bit) bit) with bit.
    + destruct (bit =? 0); reflexivity.
    + symmetry. apply Z.bits_inj'. intros n Hn.
      rewrite Z.land_spec, Z.lor_spec.
      destruct (Z.testbit u n), (Z.testbit bit n); reflexivity.
  - apply Z.bits_inj'. intros n Hn.
    rewrite !Z.land_spec, Z.lor_spec, Z.lnot_spec by assumption.
    destruct (Z.testbit u n), (Z.testbit bit n); reflexivity.
Qed.

(** ** A home reference that is not a number *)

Lemma fsub_nan (x : float) : (x - S754_nan)%f32 = S754_nan.
Proof. destruct x; reflexivity. Qed.

Lemma fmul_nan (x : float) : (x * S754_nan)%f32 = S754_nan.
Proof. destruct x; reflexivity. Qed.

(** X7: the position gate looks at the sample and at the flag of the
    home reference, not at its coordinates.  When a coordinate of the
    home reference is NaN and the drained position passes the gate, the
    position stays marked updated and the matching component of [pos] in
    the snapshot is NaN. *)
Theorem nan_home_coordinate_enters_snapshot s0 w i :
  ISSET (drained (result (StateEstimationCb sane s0) w)) pos_UPDATED = true ->
  position_test sane (homeLocation (vars w)) (data (GPSPositionObj (store w))) = true ->
  home_coordinates (homeLocation (vars w)) !!! i = S754_nan ->
  ISSET (updated (snapshot (result (StateEstimationCb sane s0) w))) pos_UPDATED = true
  /\ pos (snapshot (result (StateEstimationCb sane s0) w)) !!! i = S754_nan.
Proof.
  intros Hd Ht Hnan. pose proof (position_gate s0 w Hd) as G. cbv zeta in G.
  rewrite Ht in G. destruct G as [G1 G2]. split; [exact G1|].
  rewrite G2, getNED_result, vlookup_zip_with. unfold home_coordinates in Hnan.
  clear G1 G2 Hd Ht. revert Hnan.
  inv_fin i; [|intros i; inv_fin i; [|intros i; inv_fin i; [|intros i; inv_fin i]]];
    intros Hnan; simpl in Hnan; simpl; rewrite Hnan, fsub_nan; apply fmul_nan.
Qed.

(** ** Bringing the module up *)

Lemma extern_bind {B} c (k : unit -> M B) w :
  (extern c ≫= k) w
  = k tt {| store := store w; vars := vars w; calls := calls w ++ [c] |}.
Proof. reflexivity. Qed.

Lemma StateEstimationInitialize_run w :
  StateEstimationInitialize w
  = (0, {| store := store w;
           vars := set_stateEstimationCallback (created (store w)) (vars w);
           calls := calls w
                    ++ [Initialize oRevoSettings;
                        ConnectCallback oRevoSettings cb_settingsUpdatedCb;
                        ConnectCallback oHomeLocation cb_settingsUpdatedCb;
                        ConnectCallback oGyroSensor cb_sensorUpdatedCb;
                        ConnectCallback oAccelSensor cb_sensorUpdatedCb;
                        ConnectCallback oMagnetoSensor cb_sensorUpdatedCb;
                        ConnectCallback oBaroSensor cb_sensorUpdatedCb;
                        ConnectCallback oAirspeedSensor cb_sensorUpdatedCb;
                        ConnectCallback oGPSPosition cb_sensorUpdatedCb;
                        ConnectCallback oGPSVelocity cb_sensorUpdatedCb;
                        DelayedCallbackCreate cb_StateEstimationCb] |}).
Proof.
  unfold StateEstimationInitialize.
  repeat (rewrite extern_bind; cbn [store vars calls]; rewrite <- ?app_assoc;
          cbn [app]).
  reflexivity.
Qed.

Section BringUp.

Variables filterMagInitialize filterBaroInitialize filterStationaryInitialize
  filterCFInitialize filterCFMInitialize filterEKF13Initialize
  filterEKF16Initialize : unit -> stateFilter.

Lemma StateEstimationStart_run w :
  StateEstimationStart sane cosf filterMagInitialize filterBaroInitialize
    filterStationaryInitialize filterCFInitialize filterCFMInitialize
    filterEKF13Initialize filterEKF16Initialize w
  = (0, after (settingsUpdatedCb sane cosf None)
          {| store := store w; vars := vars w;
             calls := calls w ++ [ConnectCallback oRevoSettings cb_settingsUpdatedCb] |}).
Proof.
  unfold StateEstimationStart.
  cbv beta iota zeta delta [mbind M_bind bind mret M_ret ret extern after].
  destruct (settingsUpdatedCb sane cosf None _). reflexivity.
Qed.

(** X8: [StateEstimationInitialize] followed by [StateEstimationStart]
    returns 0 from both, stores the pointer of the created callback,
    takes the home reference over from the store and leaves the dirty set
    as it was.  It connects [sensorUpdatedCb] to the object of every one
    of the seven channels and [settingsUpdatedCb] to the home location,
    registers [settingsUpdatedCb] on the settings object twice, and
    neither schedules nor dispatches the estimation callback: the first
    cycle waits for a notification, which then dispatches the created
    callback. *)
Theorem module_bring_up ev w :
  let start := StateEstimationStart sane cosf filterMagInitialize filterBaroInitialize
                 filterStationaryInitialize filterCFInitialize filterCFMInitialize
                 filterEKF13Initialize filterEKF16Initialize in
  let w' := after start (after StateEstimationInitialize w) in
  let tr := skipn (length (calls w)) (calls w') in
  result StateEstimationInitialize w = 0
  /\ result start (after StateEstimationInitialize w) = 0
  /\ calls w' = calls w ++ tr
  /\ stateEstimationCallback (vars w') = created (store w)
  /\ updatedSensors (vars w') = updatedSensors (vars w)
  /\ homeLocation (vars w') = data (HomeLocationObj (store w))
  /\ (forall c, In (ConnectCallback (channel_objname c) cb_sensorUpdatedCb) tr)
  /\ In (ConnectCallback oHomeLocation cb_settingsUpdatedCb) tr
  /\ length (List.filter is_settings_registration tr) = 2%nat
  /\ (forall info ms mode, ~ In (DelayedCallbackSchedule info ms mode) tr)
  /\ (forall info, ~ In (DelayedCallbackDispatch info) tr)
  /\ emitted (sensorUpdatedCb (Some ev)) w' = [DelayedCallbackDispatch (created (store w))].
Proof.
  intros start w' tr.
  assert (Hw' : w' = after (settingsUpdatedCb sane cosf None)
                       {| store := store w;
                          vars := set_stateEstimationCallback (created (store w)) (vars w);
                          calls := calls w
                            ++ [Initialize oRevoSettings;
                                ConnectCallback oRevoSettings cb_settingsUpdatedCb;
                                ConnectCallback oHomeLocation cb_settingsUpdatedCb;
                                ConnectCallback oGyroSensor cb_sensorUpdatedCb;
                                ConnectCallback oAccelSensor cb_sensorUpdatedCb;
                                ConnectCallback oMagnetoSensor cb_sensorUpdatedCb;
                                ConnectCallback oBaroSensor cb_sensorUpdatedCb;
                                ConnectCallback oAirspeedSensor cb_sensorUpdatedCb;
                                ConnectCallback oGPSPosition cb_sensorUpdatedCb;
                                ConnectCallback oGPSVelocity cb_sensorUpdatedCb;
                                DelayedCallbackCreate cb_StateEstimationCb;
                                ConnectCallback oRevoSettings cb_settingsUpdatedCb] |}).
  { subst w' start. unfold after at 1 2. rewrite StateEstimationInitialize_run.
    cbn [snd]. rewrite StateEstimationStart_run. cbn [snd store vars calls].
    rewrite <- app_assoc. reflexivity. }
  assert (Hr1 : result StateEstimationInitialize w = 0).
  { unfold result. rewrite StateEstimationInitialize_run. reflexivity. }
  assert (Hr2 : result start (after StateEstimationInitialize w) = 0).
  { subst start. unfold result. rewrite StateEstimationStart_run. reflexivity. }
  clearbody w'. subst w'.
  match type of tr with
  | _ => destruct (settingsUpdatedCb_keeps None
                     {| store := store w;
                        vars := set_stateEstimationCallback (created (store w)) (vars w);
                        calls := calls w
                          ++ [Initialize oRevoSettings;
                              ConnectCallback oRevoSettings cb_settingsUpdatedCb;
                              ConnectCallback oHomeLocation cb_settingsUpdatedCb;
                              ConnectCallback oGyroSensor cb_sensorUpdatedCb;
                              ConnectCallback oAccelSensor cb_sensorUpdatedCb;
                              ConnectCallback oMagnetoSensor cb_sensorUpdatedCb;
                              ConnectCallback oBaroSensor cb_sensorUpdatedCb;
                              ConnectCallback oAirspeedSensor cb_sensorUpdatedCb;
                              ConnectCallback oGPSPosition cb_sensorUpdatedCb;
                              ConnectCallback oGPSVelocity cb_sensorUpdatedCb;
                              DelayedCallbackCreate cb_StateEstimationCb;
                              ConnectCallback oRevoSettings cb_settingsUpdatedCb] |})
      as (Hu & Hcb & Hs & Hc)
  end.
  cbn [store vars calls updatedSensors stateEstimationCallback set_stateEstimationCallback]
    in Hu, Hcb, Hs, Hc.
  subst tr. rewrite Hc, drop_app_length.
  split; [exact Hr1|]. split; [exact Hr2|]. split; [reflexivity|].
  split; [exact Hcb|]. split; [exact Hu|].
  split.
  { unfold after. rewrite settingsUpdatedCb_run. reflexivity. }
  split.
  { intros c. destruct c; cbn [channel_objname In]; auto 15. }
  split; [cbn [In]; auto 15|].
  split; [reflexivity|].
  split.
  { intros info ms mode H. cbn [In] in H.
    repeat (destruct H as [H|H]; [discriminate H|]). exact H. }
  split.
  { intros info H. cbn [In] in H.
    repeat (destruct H as [H|H]; [discriminate H|]). exact H. }
  unfold emitted.
  match goal with
  | |- context [after (sensorUpdatedCb (Some ev)) ?W] =>
      destruct (sensorUpdatedCb_calls (Some ev) W) as (Hc' & _)
  end.
  rewrite Hc', drop_app_length, Hcb. reflexivity.
Qed.

End BringUp.

End Properties.

(** * The properties on concrete data *)

(** C1: the source announces the traversal of the filter chain and does
    nothing.  With [filterA] and [filterB] handed to
    [StateEstimationStart], a cycle leaves [acc[0]] at the 0 it held,
    whereas walking the chain [filterA; filterB] over that very snapshot
    puts the 5 written by [filterA] there. *)
Theorem filter_chain_not_traversed :
  acc (snapshot (result (StateEstimationCb sane_finite sensors_zero)
                   (after (StateEstimationStart sane_finite cosf_at_zero
                             (fun _ => filterA) (fun _ => filterB) (fun _ => filterNone)
                             (fun _ => filterNone) (fun _ => filterNone)
                             (fun _ => filterNone) (fun _ => filterNone)) world0)))
    !!! 0%fin = fzero
  /\ acc (traverse [filterA; filterB]
            (snapshot (result (StateEstimationCb sane_finite sensors_zero)
                         (after (StateEstimationStart sane_finite cosf_at_zero
                                   (fun _ => filterA) (fun _ => filterB)
                                   (fun _ => filterNone) (fun _ => filterNone)
                                   (fun _ => filterNone) (fun _ => filterNone)
                                   (fun _ => filterNone)) world0))))
       !!! 0%fin = Z2F 5.
Proof. split; reflexivity. Qed.

(** Whatever the seven constructors return, [StateEstimationStart] does
    the same: the filters never reach the module's state. *)
Lemma StateEstimationStart_drops_filters sane cosf f1 f2 f3 f4 f5 f6 f7 g1 g2 g3 g4 g5 g6 g7 :
  StateEstimationStart sane cosf f1 f2 f3 f4 f5 f6 f7
  = StateEstimationStart sane cosf g1 g2 g3 g4 g5 g6 g7.
Proof. reflexivity. Qed.

(** C2: with the home reference set and a drained position sample on the
    equator, 10 degrees east and 100 m up, every coordinate is sane and
    the longitude and the altitude are far from zero, yet the gate clears
    the position bit and leaves [pos] unwritten: its magnitude test
    looks at the latitude alone.  The conversion would have given a
    non-zero east component. *)
Theorem position_rejected_on_zero_latitude :
  ISSET (drained (result (StateEstimationCb sane_finite sensors_zero)
                    (world_home gps_east pos_UPDATED))) pos_UPDATED = true
  /\ HomeLocation_Set (homeLocation (vars (world_home gps_east pos_UPDATED)))
     = HOMELOCATION_SET_TRUE
  /\ sane_finite (GPSPosition_Latitude gps_east) = true
  /\ sane_finite (GPSPosition_Longitude gps_east) = true
  /\ sane_finite (GPSPosition_Altitude gps_east) = true
  /\ (fabsf (GPSPosition_Longitude gps_east) > c_1e_5f)%f32 = true
  /\ (fabsf (GPSPosition_Altitude gps_east) > c_1e_5f)%f32 = true
  /\ ISSET (updated (snapshot (result (StateEstimationCb sane_finite sensors_zero)
                                 (world_home gps_east pos_UPDATED)))) pos_UPDATED = false
  /\ pos (snapshot (result (StateEstimationCb sane_finite sensors_zero)
                      (world_home gps_east pos_UPDATED))) = pos sensors_zero
  /\ (result (getNED gps_east (pos sensors_zero)) (world_home gps_east pos_UPDATED)
        !!! 1%fin == fzero)%f32 = false.
Proof. repeat split. Qed.

(** C3 as stated fails: a position with the latitude, longitude and
    altitude of the home reference and one metre of geoid separation is
    converted to a vector whose down component is -1, not 0. *)
Lemma geoid_separation_moves_origin :
  GPSPosition_Latitude gps_geoid
  = HomeLocation_Latitude (homeLocation (vars (world_home gps_geoid 0)))
  /\ GPSPosition_Longitude gps_geoid
     = HomeLocation_Longitude (homeLocation (vars (world_home gps_geoid 0)))
  /\ GPSPosition_Altitude gps_geoid
     = HomeLocation_Altitude (homeLocation (vars (world_home gps_geoid 0)))
  /\ result (getNED gps_geoid zero3) (world_home gps_geoid 0) !!! 2%fin = Z2F (-1)
  /\ (result (getNED gps_geoid zero3) (world_home gps_geoid 0) !!! 2%fin == fzero)%f32
     = false.
Proof. repeat split. Qed.

(** A home reference whose altitude is NaN has no origin either: the
    down component of its own position is NaN. *)
Lemma nan_altitude_has_no_origin :
  (result (getNED {| GPSPosition_Latitude := fzero; GPSPosition_Longitude := fzero;
                     GPSPosition_Altitude := S754_nan;
                     GPSPosition_GeoidSeparation := fzero |} zero3)
          (after (settingsUpdatedCb sane_finite cosf_at_zero None)
                 (world_with (objects_with gyro_zero air_zero gps_zero home_nan) 0))
     !!! 2%fin == fzero)%f32 = false.
Proof. reflexivity. Qed.

(** The home position of the equator home reference, with no geoid
    separation, is the origin. *)
Lemma home_position_maps_to_origin_witness :
  (result (getNED gps_zero zero3) (world_home gps_zero 0) !!! 0%fin == fzero)%f32 = true
  /\ (result (getNED gps_zero zero3) (world_home gps_zero 0) !!! 1%fin == fzero)%f32 = true
  /\ (result (getNED gps_zero zero3) (world_home gps_zero 0) !!! 2%fin == fzero)%f32 = true.
Proof.
  assert (H : forall i, (result (getNED gps_zero zero3) (world_home gps_zero 0) !!! i
                         == fzero)%f32 = true).
  { apply (home_position_maps_to_origin (world_home gps_zero 0) gps_zero zero3);
      try reflexivity.
    intros i. inv_fin i; [reflexivity|]. intros i. inv_fin i; [reflexivity|].
    intros i. inv_fin i; [reflexivity|]. intros i. inv_fin i. }
  split; [apply H | split; apply H].
Defined.

(** The gyroscope sample (0.1, -0.1, 0.0) is admitted as it is. *)
Lemma three_component_gate_witness :
  gyr (snapshot (result (StateEstimationCb sane_finite sensors_zero)
                   (world_with (objects_with gyro_sample air_sample gps_zero home_zero)
                               (Z.lor gyr_UPDATED ias_UPDATED))))
  = [# (Z2F 1 / Z2F 10)%f32; (Z2F (-1) / Z2F 10)%f32; fzero]
  /\ ISSET (updated (snapshot (result (StateEstimationCb sane_finite sensors_zero)
                                 (world_with
                                    (objects_with gyro_sample air_sample gps_zero home_zero)
                                    (Z.lor gyr_UPDATED ias_UPDATED))))) gyr_UPDATED = true.
Proof.
  exact (proj1 (three_component_gate_fail_closed sane_finite Gyr sensors_zero
                  (world_with (objects_with gyro_sample air_sample gps_zero home_zero)
                              (Z.lor gyr_UPDATED ias_UPDATED))
                  ltac:(discriminate) eq_refl)).
Defined.

(** A sane airspeed from a connected sensor is admitted. *)
Lemma airspeed_gate_witness :
  ISSET (updated (snapshot (result (StateEstimationCb sane_finite sensors_zero)
                              (world_with
                                 (objects_with gyro_sample air_sample gps_zero home_zero)
                                 (Z.lor gyr_UPDATED ias_UPDATED))))) ias_UPDATED = true
  /\ ias (snapshot (result (StateEstimationCb sane_finite sensors_zero)
                      (world_with (objects_with gyro_sample air_sample gps_zero home_zero)
                                  (Z.lor gyr_UPDATED ias_UPDATED))))
     = [# Z2F 12].
Proof.
  exact (airspeed_gate sane_finite sensors_zero
           (world_with (objects_with gyro_sample air_sample gps_zero home_zero)
                       (Z.lor gyr_UPDATED ias_UPDATED)) eq_refl).
Defined.

(** A home reference with a NaN altitude leaves the zero matrix of a
    fresh module in place. *)
Lemma insane_home_keeps_matrix_witness :
  LLA2NEDM (vars (after (settingsUpdatedCb sane_finite cosf_at_zero None)
                    (world_home gps_zero 0)))
  = LLA2NEDM (vars (world_home gps_zero 0))
  /\ LLA2NEDM (vars (after (settingsUpdatedCb sane_finite cosf_at_zero None)
                       (world_with (objects_with gyro_zero air_zero gps_zero home_nan) 0)))
     = zero3.
Proof.
  split.
  - reflexivity.
  - exact (insane_home_keeps_matrix sane_finite cosf_at_zero None
             (world_with (objects_with gyro_zero air_zero gps_zero home_nan) 0)
             (or_intror (or_intror (or_introl eq_refl)))).
Defined.

(** The conversion of a position 10 degrees east of the equator home
    reference. *)
Lemma getNED_is_linearized_product_witness :
  result (getNED gps_east zero3) (world_home gps_east 0)
  = toNED gps_east home_equator (LinearizationMatrix cosf_at_zero home_equator).
Proof.
  exact (proj2 (getNED_is_linearized_product sane_finite cosf_at_zero None
                  (world_with (objects_with gyro_zero air_zero gps_east home_equator) 0)
                  gps_east zero3 eq_refl)).
Defined.

(** A gyroscope notification is drained by the next cycle and by that one
    only, whatever the accelerometer and the GPS report in between. *)
Lemma drained_exactly_once_witness :
  ISSET (drained (result (StateEstimationCb sane_finite sensors_zero)
                    (after (sensorUpdatedCb (Some {| obj := 1 |})) world0)))
        gyr_UPDATED = true
  /\ ISSET (drained (result (StateEstimationCb sane_finite sensors_zero)
                       (after (notify [Some {| obj := 2 |}; None; Some {| obj := 6 |}])
                          (after (StateEstimationCb sane_finite sensors_zero)
                             (after (sensorUpdatedCb (Some {| obj := 1 |})) world0)))))
           gyr_UPDATED = false.
Proof.
  pose proof (drained_exactly_once sane_finite gyroscope {| obj := 1 |}
                [Some {| obj := 2 |}; None; Some {| obj := 6 |}]
                sensors_zero sensors_zero world0 eq_refl eq_refl) as H.
  split; [exact (proj1 H) | exact (proj2 (proj2 H))].
Defined.

(** C5 as stated fails: the drain is a load followed by a separate
    load, xor and store, and [|=] is a load followed by a store.  When
    the first cycle runs between the load and the store of an
    accelerometer notification, the store puts back the gyroscope bit the
    cycle has drained: the gyroscope, notified once and before the first
    cycle, is in the mask of both cycles.  When an accelerometer
    notification runs between the load and the store of a cycle's [^=],
    the store wipes its bit: the accelerometer is in the mask of neither
    cycle, and the dirty set is empty at the end. *)
Lemma interleaved_drain_is_not_atomic :
  (quiescent (interleave revived_schedule revived_machine) = true
   /\ ISSET (drained_by 2 (interleave revived_schedule revived_machine)) gyr_UPDATED = true
   /\ ISSET (drained_by 3 (interleave revived_schedule revived_machine)) gyr_UPDATED = true)
  /\ (quiescent (interleave lost_schedule lost_machine) = true
      /\ ISSET (drained_by 0 (interleave lost_schedule lost_machine)) acc_UPDATED = false
      /\ ISSET (drained_by 2 (interleave lost_schedule lost_machine)) acc_UPDATED = false
      /\ shared (interleave lost_schedule lost_machine) = 0).
Proof. vm_compute. intuition reflexivity. Qed.

(** The same activations scheduled in turn: the first cycle drains both
    bits and the second none; the notification that follows a cycle is
    drained by the next one. *)
Lemma activations_in_turn :
  (drained_by 2 (interleave [0; 0; 1; 1; 2; 2; 2; 2; 3; 3; 3; 3]%nat revived_machine) = 3
   /\ drained_by 3 (interleave [0; 0; 1; 1; 2; 2; 2; 2; 3; 3; 3; 3]%nat revived_machine) = 0)
  /\ (drained_by 0 (interleave [0; 0; 0; 0; 1; 1; 2; 2; 2; 2]%nat lost_machine) = 0
      /\ drained_by 2 (interleave [0; 0; 0; 0; 1; 1; 2; 2; 2; 2]%nat lost_machine)
         = acc_UPDATED).
Proof. vm_compute. intuition reflexivity. Qed.

(** From a fresh module, a gyroscope notification is followed by a cycle
    that clears the alarm; a notification for an object that is none of
    the seven is followed by one that raises it. *)
Lemma notified_cycle_alarm_witness :
  emitted (StateEstimationCb sane_finite sensors_zero)
          (after (sensorUpdatedCb (Some {| obj := 1 |})) world0)
  = [AlarmsClear SYSTEMALARMS_ALARM_ATTITUDE;
     DelayedCallbackSchedule 0 TIMEOUT_MS UPDATEMODE_SOONER]
  /\ emitted (StateEstimationCb sane_finite sensors_zero)
             (after (sensorUpdatedCb (Some {| obj := 42 |})) world0)
     = [AlarmsSet SYSTEMALARMS_ALARM_ATTITUDE SYSTEMALARMS_ALARM_WARNING;
        DelayedCallbackSchedule 0 TIMEOUT_MS UPDATEMODE_SOONER].
Proof.
  split.
  - exact (notified_cycle_alarm sane_finite {| obj := 1 |} sensors_zero world0 eq_refl).
  - exact (notified_cycle_alarm sane_finite {| obj := 42 |} sensors_zero world0 eq_refl).
Defined.

(** A sane position at 45 degrees north, drained after a home reference
    with a NaN altitude was taken over, is admitted with a NaN down
    component. *)
Lemma nan_home_coordinate_witness :
  ISSET (updated (snapshot (result (StateEstimationCb sane_finite sensors_zero)
                              world_nan_home))) pos_UPDATED = true
  /\ pos (snapshot (result (StateEstimationCb sane_finite sensors_zero) world_nan_home))
       !!! 2%fin = S754_nan.
Proof.
  exact (nan_home_coordinate_enters_snapshot sane_finite sensors_zero world_nan_home 2%fin
           eq_refl eq_refl eq_refl).
Defined.
